(** * NeighborRoutingExtension: direct-neighbour routing of the IBR-DTN daemon

    A shallow embedding of [daemon/src/routing/NeighborRoutingExtension.cpp]:
    the routing decision [shouldRouteTo], the selector [BundleFilter] handed
    to the storage, the worker loop [run] with its two task variants, and the
    event adapters [eventDataChanged] and [eventBundleQueued].

    Classes of other translation units (EID, MetaBundle, NeighborDatabase,
    ConnectionManager, BundleCore, the storage and the task queue) appear
    through the operations this file calls on them. *)

From stdpp Require Import gmap strings list.
From Stdlib Require Import NArith.

Set Default Proof Using "Type*".

(** ** The types of the collaborating classes *)

(** What this file needs from [dtn::data::EID], [dtn::data::BundleID],
    [dtn::core::Node], [dtn::core::Node::Protocol] and
    [dtn::core::BundleFilter::ACTION]: they are declared in other headers, so
    they are taken as parameters together with the operations used here. *)
Class Domain := {
  EID : Type;
  EID_eq_dec :: EqDecision EID;
  EID_countable :: Countable EID;
  (* EID::sameHost *)
  sameHost : EID -> EID -> bool;
  (* dtn::core::BundleCore::local *)
  local : EID;
  BundleID : Type;
  BundleID_eq_dec :: EqDecision BundleID;
  BundleID_countable :: Countable BundleID;
  Node : Type;
  (* Node::getEID *)
  getEID : Node -> EID;
  Protocol : Type;
  (* dtn::core::Node::CONN_UNDEFINED *)
  CONN_UNDEFINED : Protocol;
  ACTION : Type;
  ACTION_eq_dec :: EqDecision ACTION;
  (* dtn::core::BundleFilter::ACCEPT *)
  ACCEPT : ACTION;
}.

(** [dtn::data::PrimaryBlock::FLAGS], as far as this file reads them. *)
Inductive FLAGS := DESTINATION_IS_SINGLETON.

(** [dtn::core::BundleFilter::TABLE], as far as this file names it. *)
Inductive TABLE := ROUTING.

(** The failures that travel through [run] as C++ exceptions. All of them
    derive from [std::exception]. *)
Inductive Exn :=
| NoMoreTransfersAvailable
| EntryNotFoundException
| NodeNotAvailableException
| NoBundleFoundException
| AlreadyInTransitException
| NoRouteKnownException
| bad_cast
| QueueUnavailableException
| other_exception (what : string).

Section DataModel.
Context `{D : Domain}.

(** Modelled from the spec: [dtn::data::MetaBundle] is declared in another
    header. A descriptor of a bundle: its identity, its destination, the
    "destination is singleton" flag and the hop-count. *)
Record MetaBundle := {
  bundle_id : BundleID;
  destination : EID;
  destination_is_singleton : bool;
  hopcount : N;
}.

(* meta.get(flag) *)
Definition meta_get (meta : MetaBundle) (flag : FLAGS) : bool :=
  match flag with
  | DESTINATION_IS_SINGLETON => destination_is_singleton meta
  end.

(** Modelled from the spec: [NeighborDatabase::NeighborEntry] is declared in
    NeighborDatabase.h. The neighbour's EID, the set of the bundle identities
    the neighbour is known to hold, the free transfer slots and the transfers
    in flight. *)
Record NeighborEntry := {
  eid : EID;
  known : gset BundleID;
  free_transfer_slots : N;
  in_flight : N;
}.

(** Modelled from the spec: [NeighborEntry::has], the bundle's identity is
    in the known-bundle set. *)
Definition has (n : NeighborEntry) (meta : MetaBundle) : bool :=
  bool_decide (bundle_id meta ∈ known n).

(** Modelled from the spec: [NeighborEntry::getFreeTransferSlots], the
    count of free transfer slots. *)
Definition getFreeTransferSlots (n : NeighborEntry) : N :=
  free_transfer_slots n.

(** Modelled from the spec: [dtn::core::FilterContext] is declared in
    another header. A context carries the peer, the routing extension, the
    bundle and the protocol; every attribute is unset until its setter is
    called, and the routing extension is recorded by its tag. *)
Record FilterContext := {
  ctx_peer : option EID;
  ctx_routing : option string;
  ctx_metabundle : option MetaBundle;
  ctx_protocol : option Protocol;
}.

Definition new_context : FilterContext :=
  {| ctx_peer := None; ctx_routing := None;
     ctx_metabundle := None; ctx_protocol := None |}.

Definition setPeer (e : EID) (c : FilterContext) : FilterContext :=
  {| ctx_peer := Some e; ctx_routing := ctx_routing c;
     ctx_metabundle := ctx_metabundle c; ctx_protocol := ctx_protocol c |}.

Definition setRouting (tag : string) (c : FilterContext) : FilterContext :=
  {| ctx_peer := ctx_peer c; ctx_routing := Some tag;
     ctx_metabundle := ctx_metabundle c; ctx_protocol := ctx_protocol c |}.

Definition setMetaBundle (m : MetaBundle) (c : FilterContext) : FilterContext :=
  {| ctx_peer := ctx_peer c; ctx_routing := ctx_routing c;
     ctx_metabundle := Some m; ctx_protocol := ctx_protocol c |}.

Definition setProtocol (p : Protocol) (c : FilterContext) : FilterContext :=
  {| ctx_peer := ctx_peer c; ctx_routing := ctx_routing c;
     ctx_metabundle := ctx_metabundle c; ctx_protocol := Some p |}.

(* NeighborRoutingExtension::getTag *)
Definition getTag : string := "neighbor".

(** Modelled from the spec: [RoutingResult] is declared in the header of
    this class. The bundles selected for a neighbour with the protocol chosen
    for each, in the order [put] was called. *)
Definition RoutingResult : Type := list (MetaBundle * Protocol).

Definition put (meta : MetaBundle) (p : Protocol) (result : RoutingResult)
  : RoutingResult :=
  result ++ [(meta, p)].

(** The two task classes derived from [Task]. *)
Inductive Task :=
| SearchNextBundleTask (e : EID)
| ProcessBundleTask (bundle : MetaBundle) (origin nexthop : EID).

End DataModel.

(** ** The policy evaluator *)

(** [BundleCore::evaluate]: the filter chains live in the daemon core. The
    evaluator may keep state of its own, which is part of [World]. *)
Class PolicyEvaluator `{D : Domain} (World : Type) := {
  evaluate : TABLE -> FilterContext -> World -> ACTION * World;
}.

Section RoutingDecision.
Context `{D : Domain} {World : Type} `{P : !PolicyEvaluator World}.

(** The loop over [plist] at the end of [shouldRouteTo]. The one [context]
    object is updated with each protocol in turn. *)
Fixpoint check_paths (context : FilterContext) (plist : list Protocol)
    (w : World) : (bool * Protocol) * World :=
  match plist with
  | [] => ((false, CONN_UNDEFINED), w)
  | p :: rest =>
      let context := setProtocol p context in
      let '(ret, w) := evaluate ROUTING context w in
      if decide (ret = ACCEPT) then ((true, p), w)
      else check_paths context rest w
  end.

Definition shouldRouteTo (meta : MetaBundle) (n : NeighborEntry)
    (plist : list Protocol) (w : World) : (bool * Protocol) * World :=
  (* check Scope Control Block - do not forward bundles with hop limit == 0 *)
  if (hopcount meta =? 0)%N then ((false, CONN_UNDEFINED), w)
  else if meta_get meta DESTINATION_IS_SINGLETON then
    (* do not forward local bundles *)
    if sameHost (destination meta) local then ((false, CONN_UNDEFINED), w)
    (* do not forward bundles for other nodes *)
    else if negb (sameHost (destination meta) (eid n)) then
      ((false, CONN_UNDEFINED), w)
    (* do not forward bundles already known by the destination *)
    else if has n meta then ((false, CONN_UNDEFINED), w)
    else
      let context := new_context in
      let context := setPeer (eid n) context in
      let context := setRouting getTag context in
      let context := setMetaBundle meta context in
      check_paths context plist w
  else
    (* do not forward non-singleton bundles *)
    ((false, CONN_UNDEFINED), w).

(** [k] calls of [shouldRouteTo] in a row on the same bundle and entry. *)
Fixpoint shouldRouteTo_times (k : nat) (meta : MetaBundle)
    (n : NeighborEntry) (plist : list Protocol) (w : World)
    : list (bool * Protocol) * World :=
  match k with
  | O => ([], w)
  | S k =>
      let '(ret, w) := shouldRouteTo meta n plist w in
      let '(rets, w) := shouldRouteTo_times k meta n plist w in
      (ret :: rets, w)
  end.

End RoutingDecision.

(** ** The worker and its collaborators *)

(** The selector object [run] hands to the storage: the class [BundleFilter]
    local to [run], as a record of its two virtual methods. *)
Record BundleFilter `{D : Domain} (World : Type) := {
  limit : N;
  addIfSelected :
    RoutingResult -> MetaBundle -> World -> (bool * RoutingResult) * World;
}.
Arguments limit {D World} _.
Arguments addIfSelected {D World} _ _ _ _.

(** The services [run] and the event adapters call. Their state is [World];
    a call that can throw returns the exception next to the new state. The
    lookup of the neighbour database, the storage query and the transfer
    are defined in other files: they are given the entries of the neighbour
    database and return them as they leave them. *)
Class Collaborators `{D : Domain} (World : Type) := {
  policy :: PolicyEvaluator World;
  (* ConnectionManager::getSupportedProtocols *)
  getSupportedProtocols : EID -> World -> list Protocol;
  (* ConnectionManager::getNeighbors, a std::set in its iteration order *)
  getNeighbors : World -> list Node;
  (* NeighborDatabase::get(eid, bool) *)
  db_get :
    EID -> bool -> gmap EID NeighborEntry ->
    (Exn + NeighborEntry) * gmap EID NeighborEntry;
  (* getSeeker().get(filter, list) *)
  seeker_get :
    BundleFilter World -> RoutingResult -> gmap EID NeighborEntry -> World ->
    (option Exn * RoutingResult) * gmap EID NeighborEntry * World;
  (* RoutingExtension::transferTo *)
  transferTo :
    EID -> MetaBundle -> Protocol -> gmap EID NeighborEntry -> World ->
    option Exn * gmap EID NeighborEntry * World;
  (* NeighborEntry::isTransferThresholdReached *)
  isTransferThresholdReached : NeighborEntry -> bool;
}.

Section Worker.
Context `{D : Domain} {World : Type} `{C : !Collaborators World}.

(** What [run] writes to the debug log. *)
Inductive LogMsg :=
| processing (t : Task)
| got_items (size : nat) (e : EID)
| aborted (t : Task) (ex : Exn)
| terminated (ex : Exn).

(** The calls of [run] that the properties below speak about, in the order
    they happen. *)
Inductive Event :=
| EvLock
| EvUnlock
| EvSeek
| EvTransfer (e : EID) (meta : MetaBundle) (p : Protocol)
| EvDebug (msg : LogMsg).

(** Modelled from the spec: the task queue ([ibrcommon::Queue], not part of
    this file) is a FIFO; [push] never blocks, [poll] waits for a task and
    signals termination once the queue is aborted. *)
Record Queue := {
  items : list Task;
  queue_aborted : bool;
}.

Definition push (t : Task) (q : Queue) : Queue :=
  {| items := items q ++ [t]; queue_aborted := queue_aborted q |}.

Inductive Polled :=
| PollWaits
| PollAborted
| PollTask (t : Task) (q : Queue).

Definition poll (q : Queue) : Polled :=
  if queue_aborted q then PollAborted
  else match items q with
       | [] => PollWaits
       | t :: rest =>
           PollTask t {| items := rest; queue_aborted := queue_aborted q |}
       end.

(** The state [run] works on: the neighbour database and its mutex, the
    collaborators, the task queue, the local [list] of [run], and the
    events so far. *)
Record Worker := {
  db : gmap EID NeighborEntry;
  db_locked : bool;
  world : World;
  taskqueue : Queue;
  run_list : RoutingResult;
  trace : list Event;
}.

Definition set_db (f : gmap EID NeighborEntry -> gmap EID NeighborEntry)
    (s : Worker) : Worker :=
  {| db := f (db s); db_locked := db_locked s; world := world s;
     taskqueue := taskqueue s; run_list := run_list s; trace := trace s |}.

Definition set_locked (b : bool) (s : Worker) : Worker :=
  {| db := db s; db_locked := b; world := world s;
     taskqueue := taskqueue s; run_list := run_list s; trace := trace s |}.

Definition set_world (w : World) (s : Worker) : Worker :=
  {| db := db s; db_locked := db_locked s; world := w;
     taskqueue := taskqueue s; run_list := run_list s; trace := trace s |}.

Definition set_taskqueue (q : Queue) (s : Worker) : Worker :=
  {| db := db s; db_locked := db_locked s; world := world s;
     taskqueue := q; run_list := run_list s; trace := trace s |}.

Definition set_run_list (l : RoutingResult) (s : Worker) : Worker :=
  {| db := db s; db_locked := db_locked s; world := world s;
     taskqueue := taskqueue s; run_list := l; trace := trace s |}.

Definition emit (ev : Event) (s : Worker) : Worker :=
  {| db := db s; db_locked := db_locked s; world := world s;
     taskqueue := taskqueue s; run_list := run_list s;
     trace := trace s ++ [ev] |}.

(** *** Statements that may throw *)

Definition M (A : Type) : Type := Worker -> (Exn + A) * Worker.

#[global] Instance M_ret : MRet M := fun A a s => (inr a, s).

#[global] Instance M_bind : MBind M := fun A B f m s =>
  match m s with
  | (inr a, s) => f a s
  | (inl ex, s) => (inl ex, s)
  end.

Definition throw {A} (ex : Exn) : M A := fun s => (inl ex, s).

(* try { body } catch ... { handler } *)
Definition try_catch {A} (body : M A) (handler : Exn -> M A) : M A :=
  fun s =>
    match body s with
    | (inr a, s) => (inr a, s)
    | (inl ex, s) => handler ex s
    end.

Definition modify (f : Worker -> Worker) : M unit := fun s => (inr tt, f s).

Definition reads {A} (f : Worker -> A) : M A := fun s => (inr (f s), s).

(* IBRCOMMON_LOGGER_DEBUG_TAG *)
Definition debug (msg : LogMsg) : M unit := modify (emit (EvDebug msg)).

(** [{ ibrcommon::MutexLock l(db); body }]: the constructor locks, and the
    destructor unlocks when the block is left, by its end or by a throw. *)
Definition with_lock {A} (body : M A) : M A := fun s =>
  let s := emit EvLock (set_locked true s) in
  let '(r, s) := body s in
  (r, emit EvUnlock (set_locked false s)).

(** *** The neighbour database *)

(* db.get(eid, flag) *)
Definition get (e : EID) (flag : bool) : M NeighborEntry :=
  fun s =>
    let '(r, m) := db_get e flag (db s) in
    (r, set_db (fun _ => m) s).

(** *** The bundle filter of [run] *)

(** The filter is built from the entry that the lookup returned and is used
    by the storage query alone, while the worker holds the lock of the
    database. *)
Definition BundleFilter_new (entry : NeighborEntry) (plist : list Protocol)
    : BundleFilter World :=
  {| limit := getFreeTransferSlots entry;
     addIfSelected := fun result meta w =>
       (* check if the considered bundle should get routed *)
       let '(ret, w) := shouldRouteTo meta entry plist w in
       (* put the considered bundle into the result-set *)
       if ret.1 then ((ret.1, put meta ret.2 result), w)
       else ((ret.1, result), w) |}.

(* getSeeker().get(filter, list) *)
Definition seek (filter : BundleFilter World) : M unit := fun s =>
  let s := emit EvSeek s in
  let '((ex, l), m, w) := seeker_get filter (run_list s) (db s) (world s) in
  let s := set_run_list l (set_world w (set_db (fun _ => m) s)) in
  match ex with
  | Some ex => (inl ex, s)
  | None => (inr tt, s)
  end.

(* transferTo(eid, bundle, protocol) *)
Definition transfer (e : EID) (meta : MetaBundle) (p : Protocol) : M unit :=
  fun s =>
    let s := emit (EvTransfer e meta p) s in
    let '(ex, m, w) := transferTo e meta p (db s) (world s) in
    let s := set_world w (set_db (fun _ => m) s) in
    match ex with
    | Some ex => (inl ex, s)
    | None => (inr tt, s)
    end.

(* shouldRouteTo(bundle, entry, plist), on the worker's state *)
Definition route (meta : MetaBundle) (entry : NeighborEntry)
    (plist : list Protocol) : M (bool * Protocol) := fun s =>
  let '(ret, w) := shouldRouteTo meta entry plist (world s) in
  (inr ret, set_world w s).

(** *** The two blocks of [run] *)

(* dynamic_cast<SearchNextBundleTask&>( *t ) *)
Definition cast_SearchNextBundleTask (t : Task) : M EID :=
  match t with
  | SearchNextBundleTask e => mret e
  | ProcessBundleTask _ _ _ => throw bad_cast
  end.

(* dynamic_cast<ProcessBundleTask&>( *t ) *)
Definition cast_ProcessBundleTask (t : Task) : M (MetaBundle * EID * EID) :=
  match t with
  | ProcessBundleTask bundle origin nexthop => mret (bundle, origin, nexthop)
  | SearchNextBundleTask _ => throw bad_cast
  end.

(** The [for] loop over [list]: send the bundles as long as we have
    resources. Only AlreadyInTransitException is caught inside the loop. *)
Fixpoint transfer_all (e : EID) (l : RoutingResult) : M unit :=
  match l with
  | [] => mret tt
  | (meta, p) :: rest =>
      try_catch (transfer e meta p)
        (fun ex => match ex with
                   | AlreadyInTransitException => mret tt
                   | _ => throw ex
                   end) ;;
      transfer_all e rest
  end.

(** The body of the first inner [try]. *)
Definition search_next_bundle (t : Task) : M unit :=
  task_eid ← cast_SearchNextBundleTask t;
  (* clear the result list *)
  modify (set_run_list []) ;;
  (* lock the neighbor database while searching for bundles *)
  with_lock (
    entry ← get task_eid true;
    (* check if enough transfer slots available (threshold reached) *)
    if negb (isTransferThresholdReached entry)
    then throw NoMoreTransfersAvailable
    else
      plist ← reads (fun s => getSupportedProtocols (eid entry) (world s));
      seek (BundleFilter_new entry plist)) ;;
  l ← reads run_list;
  debug (got_items (length l) task_eid) ;;
  transfer_all task_eid l.

(** The [catch] clauses of the first inner [try]. *)
Definition search_catch (t : Task) (ex : Exn) : M unit :=
  match ex with
  | NoMoreTransfersAvailable
  | EntryNotFoundException
  | NodeNotAvailableException
  | NoBundleFoundException => debug (aborted t ex)
  | bad_cast => mret tt
  | _ => throw ex
  end.

(** The body of the second inner [try]. *)
Definition process_bundle (t : Task) : M unit :=
  '(bundle, origin, nexthop) ← cast_ProcessBundleTask t;
  plist ← reads (fun s => getSupportedProtocols nexthop (world s));
  ret ← with_lock (
    entry ← get nexthop true;
    ret ← route bundle entry plist;
    if negb ret.1 then throw NoRouteKnownException else mret ret);
  (* transfer the bundle to the neighbor *)
  transfer nexthop bundle ret.2.

(** The [catch] clauses of the second inner [try]. *)
Definition process_catch (t : Task) (ex : Exn) : M unit :=
  match ex with
  | AlreadyInTransitException
  | NoMoreTransfersAvailable
  | EntryNotFoundException
  | NodeNotAvailableException => debug (aborted t ex)
  | NoRouteKnownException => mret tt
  | bad_cast => mret tt
  | _ => throw ex
  end.

(** What the outer [try] does with a task once [poll] has returned it. *)
Definition run_task (t : Task) : M unit :=
  debug (processing t) ;;
  try_catch (search_next_bundle t) (search_catch t) ;;
  try_catch (process_bundle t) (process_catch t).

(** *** The loop *)

Inductive Status :=
| Yielded      (* the iteration reached [yield()], the loop goes on *)
| Returned     (* the outer [catch] was entered, [run] has returned *)
| Polling.     (* [poll] waits for a task *)

(** One iteration of [while (true)]. *)
Definition run_iteration (s : Worker) : Status * Worker :=
  match poll (taskqueue s) with
  | PollWaits => (Polling, s)
  | PollAborted =>
      (Returned, emit (EvDebug (terminated QueueUnavailableException)) s)
  | PollTask t q =>
      match run_task t (set_taskqueue q s) with
      | (inr _, s) => (Yielded, s)
      | (inl ex, s) => (Returned, emit (EvDebug (terminated ex)) s)
      end
  end.

(** [run], for at most [fuel] iterations. *)
Fixpoint run (fuel : nat) (s : Worker) : Status * Worker :=
  match fuel with
  | O => (Yielded, s)
  | S fuel =>
      match run_iteration s with
      | (Yielded, s) => run fuel s
      | r => r
      end
  end.

(** *** The event adapters *)

Definition eventDataChanged (peer : EID) (s : Worker) : Worker :=
  (* transfer the next bundle to this destination *)
  set_taskqueue (push (SearchNextBundleTask peer) (taskqueue s)) s.

(** The [for] loop of [eventBundleQueued] over the neighbours. *)
Fixpoint queue_for_neighbors (peer : EID) (meta : MetaBundle)
    (nl : list Node) (q : Queue) : Queue :=
  match nl with
  | [] => q
  | n :: rest =>
      let q :=
        if negb (bool_decide (getEID n = peer))
        then push (ProcessBundleTask meta peer (getEID n)) q
        else q in
      queue_for_neighbors peer meta rest q
  end.

Definition eventBundleQueued (peer : EID) (meta : MetaBundle) (s : Worker)
    : Worker :=
  (* try to deliver new bundles to all neighbors *)
  let nl := getNeighbors (world s) in
  set_taskqueue (queue_for_neighbors peer meta nl (taskqueue s)) s.

End Worker.

(** Unfold the record updates of the worker's state. *)
Ltac unfold_state :=
  cbv [emit set_locked set_db set_run_list set_taskqueue set_world
       db db_locked world taskqueue run_list trace mret M_ret].

(** ** Notions used to state the properties *)

Section Notions.
Context `{D : Domain} {World : Type}.

(** "Do not forward". *)
Definition do_not_forward : bool * Protocol := (false, CONN_UNDEFINED).

(** The answer for an optional selected protocol. *)
Definition selection (r : option Protocol) : bool * Protocol :=
  match r with
  | Some p => (true, p)
  | None => do_not_forward
  end.

(** The context the evaluator is to be asked with for candidate [p]: the
    peer, the routing extension, the bundle and the candidate protocol. *)
Definition routing_context (n : NeighborEntry) (meta : MetaBundle)
    (p : Protocol) : FilterContext :=
  {| ctx_peer := Some (eid n); ctx_routing := Some getTag;
     ctx_metabundle := Some meta; ctx_protocol := Some p |}.

(** First-accept-wins over a protocol list, as a relation: the protocols
    are asked in the given order, each answer other than ACCEPT moves on to
    the next protocol, the first ACCEPT selects, and nothing is selected
    when the list is used up. *)
Inductive first_accept_wins (ask : Protocol -> World -> ACTION * World)
  : list Protocol -> World -> option Protocol -> World -> Prop :=
| first_accept_none w :
    first_accept_wins ask [] w None w
| first_accept_here p rest w w' :
    ask p w = (ACCEPT, w') ->
    first_accept_wins ask (p :: rest) w (Some p) w'
| first_accept_later p rest a w w' r w'' :
    ask p w = (a, w') -> a <> ACCEPT ->
    first_accept_wins ask rest w' r w'' ->
    first_accept_wins ask (p :: rest) w r w''.

(** The bundle passes the hop-count, singleton-destination and
    deduplication checks for neighbour [n]. *)
Definition passes_checks (meta : MetaBundle) (n : NeighborEntry) : Prop :=
  hopcount meta <> 0%N /\
  meta_get meta DESTINATION_IS_SINGLETON = true /\
  sameHost (destination meta) local = false /\
  sameHost (destination meta) (eid n) = true /\
  has n meta = false.

(** An evaluator that also keeps the list of the contexts it was asked
    with. *)
Definition recording (P : PolicyEvaluator World)
    : PolicyEvaluator (World * list (TABLE * FilterContext)) :=
  {| evaluate := fun table context wl =>
       let '(a, w) := evaluate table context wl.1 in
       (a, (w, wl.2 ++ [(table, context)])) |}.

(** The neighbour a task is about. *)
Definition task_target (t : Task) : EID :=
  match t with
  | SearchNextBundleTask e => e
  | ProcessBundleTask _ _ nexthop => nexthop
  end.

End Notions.

Section WorkerNotions.
Context `{D : Domain} {World : Type} `{C : !Collaborators World}.

(** Whether the database mutex is held after the events [evs], when it was
    held or not ([held]) before them. *)
Fixpoint lock_held_after (held : bool) (evs : list Event)
    : bool :=
  match evs with
  | [] => held
  | EvLock :: evs => lock_held_after true evs
  | EvUnlock :: evs => lock_held_after false evs
  | _ :: evs => lock_held_after held evs
  end.

(** Every [transferTo] among the events [evs] is called while the database
    mutex is not held. *)
Fixpoint transfers_unlocked (held : bool) (evs : list Event)
    : bool :=
  match evs with
  | [] => true
  | EvLock :: evs => transfers_unlocked true evs
  | EvUnlock :: evs => transfers_unlocked false evs
  | EvTransfer _ _ _ :: evs => negb held && transfers_unlocked held evs
  | _ :: evs => transfers_unlocked held evs
  end.

(** What [transferTo] answers for the candidates of [l] when they are
    offered one after the other. *)
Fixpoint transfer_replies (e : EID) (l : RoutingResult)
    (m : gmap EID NeighborEntry) (w : World) : list (option Exn) :=
  match l with
  | [] => []
  | (meta, p) :: rest =>
      let '(ex, m, w) := transferTo e meta p m w in
      ex :: transfer_replies e rest m w
  end.

(** The neighbour database and the state of the collaborators after these
    offers. *)
Fixpoint after_transfers (e : EID) (l : RoutingResult)
    (m : gmap EID NeighborEntry) (w : World) : gmap EID NeighborEntry * World :=
  match l with
  | [] => (m, w)
  | (meta, p) :: rest =>
      let '(_, m, w) := transferTo e meta p m w in
      after_transfers e rest m w
  end.

(** The [transferTo] events for the candidates of [l]. *)
Definition transfer_events (e : EID) (l : RoutingResult)
    : list Event :=
  map (fun c => EvTransfer e c.1 c.2) l.

(** A reply of [transferTo] that lets the loop over the candidates go on. *)
Definition tolerated (reply : option Exn) : Prop :=
  reply = None \/ reply = Some AlreadyInTransitException.

(** The statement [m] keeps the locking discipline: started with the mutex
    held or not ([pre]), every [transferTo] it makes happens while the
    mutex is not held; when it ends normally the mutex is in state [post],
    when it ends by a throw in state [post_throw]; and the [db_locked] flag
    follows the lock and unlock events. *)
Definition lock_safe {A} (pre post post_throw : bool)
    (m : M (World := World) A) : Prop :=
  forall s,
    exists evs,
      trace (m s).2 = trace s ++ evs /\
      transfers_unlocked pre evs = true /\
      lock_held_after pre evs =
        (match (m s).1 with inr _ => post | inl _ => post_throw end) /\
      db_locked (m s).2 = lock_held_after (db_locked s) evs.

(** The statement [m] keeps the property [I] of the neighbour database,
    whether it ends normally or by a throw. *)
Definition db_keeps {A} (I : gmap EID NeighborEntry -> Prop)
    (m : M (World := World) A) : Prop :=
  forall s, I (db s) -> I (db (m s).2).


(** The inner [try] body that is written for the class of [t]. *)
Definition task_block (t : Task) : M (World := World) unit :=
  match t with
  | SearchNextBundleTask _ => search_next_bundle t
  | ProcessBundleTask _ _ _ => process_bundle t
  end.

(** The tasks [eventBundleQueued] is to push for the neighbours [nl]: one
    for each neighbour other than [peer]. *)
Definition offers (peer : EID) (meta : MetaBundle) (nl : list Node)
    : list Task :=
  (fun n => ProcessBundleTask meta peer (getEID n)) <$>
    filter (fun n => getEID n <> peer) nl.

(** The number of tasks of [l] that are about neighbour [e]. *)
Definition tasks_for (e : EID) (l : list Task) : nat :=
  length (filter (fun t => task_target t = e) l).

End WorkerNotions.

(** ** The lookup of a neighbour *)

Section Lookup.
Context `{D : Domain}.

(** Modelled from the spec: [NeighborDatabase::get] is defined in
    NeighborDatabase.cpp. The worker looks the neighbour entry up "or fails
    with entry not found", and EntryNotFound means that the neighbour is
    unknown to the database: the stored entry is returned, and the lookup of
    an EID without an entry fails and leaves the database as it is. What the
    boolean argument changes is not told where the worker is described; it
    is not used here. *)
Definition lookup_or_fail (e : EID) (flag : bool)
    (m : gmap EID NeighborEntry)
    : (Exn + NeighborEntry) * gmap EID NeighborEntry :=
  match m !! e with
  | Some entry => (inr entry, m)
  | None => (inl EntryNotFoundException, m)
  end.

End Lookup.

(** ** Cancellation, the rendering of tasks and the SQL side of the selector *)

(** What the remaining functions of the file need from [dtn::data::EID],
    [dtn::data::MetaBundle] and sqlite: the string renderings, the node part
    of an EID and the binding of a text to a parameter of a prepared
    statement, declared in other headers and taken as parameters. *)
Class Rendering `{D : Domain} := {
  (* EID::getString *)
  getString : EID -> string;
  (* EID::getNode *)
  getNode : EID -> EID;
  (* MetaBundle::toString *)
  bundle_toString : MetaBundle -> string;
  (* sqlite3_stmt *)
  Stmt : Type;
  (* sqlite3_bind_text(st, index, text, nbytes, SQLITE_TRANSIENT): the result
     code and the statement after the call *)
  sqlite3_bind_text : Stmt -> Z -> string -> Z -> Z * Stmt;
}.

Section Rendering.
Context `{D : Domain} `{R : !Rendering}.

(** [SearchNextBundleTask::toString] and [ProcessBundleTask::toString], the
    two overriders of [Task::toString]. *)
Definition toString (t : Task) : string :=
  match t with
  | SearchNextBundleTask e => "SearchNextBundleTask: " +:+ getString e
  | ProcessBundleTask bundle _ _ =>
      "ProcessBundleTask: " +:+ bundle_toString bundle
  end.

(* BundleFilter::getWhere, compiled with HAVE_SQLITE *)
Definition getWhere : string := "destination LIKE ?".

(** The C [int], 32 bits wide in two's complement. *)
Definition INT_MIN : Z := (-2147483648)%Z.
Definition INT_MAX : Z := 2147483647%Z.

(** The [int] that [static_cast<int>] and the [int] arithmetic of the
    compiled code give for the integer [z]: [z] itself inside the range, and
    [z] wrapped around by 2^32 outside of it. *)
Definition to_int (z : Z) : Z :=
  ((z + 2147483648) mod 4294967296 - 2147483648)%Z.

(** [BundleFilter::bind], compiled with HAVE_SQLITE: one call of
    [sqlite3_bind_text] for the parameter [offset], with the bytes of [d] and
    their number as an [int]; the result code of the call is dropped, and the
    next index is returned. *)
Definition bind (entry : NeighborEntry) (st : Stmt) (offset : Z) : Stmt * Z :=
  let d := getString (getNode (eid entry)) +:+ "%" in
  let st :=
    (sqlite3_bind_text st offset d (to_int (Z.of_nat (String.length d)))).2 in
  (st, to_int (offset + 1)).

(** The parameter marker of SQL, the character "?" (code 63). *)
Definition placeholder : Ascii.ascii := Ascii.ascii_of_nat 63.

(** The number of occurrences of the character [c] in a string. *)
Fixpoint occurrences (c : Ascii.ascii) (str : string) : nat :=
  match str with
  | EmptyString => 0
  | String c' rest =>
      (if bool_decide (c' = c) then 1 else 0) + occurrences c rest
  end.

End Rendering.

Section Cancellation.
Context `{D : Domain} {World : Type} `{C : !Collaborators World}.

(** Modelled from the spec: [ibrcommon::Queue::abort] is not part of this
    file; after it every [poll] signals that the queue is terminated. *)
Definition abort (q : Queue) : Queue :=
  {| items := items q; queue_aborted := true |}.

(* NeighborRoutingExtension::__cancellation *)
Definition __cancellation (s : Worker (World := World)) : Worker :=
  set_taskqueue (abort (taskqueue s)) s.

End Cancellation.

(** ** Notions for the work done on a task *)

Section WorkNotions.
Context `{D : Domain} {World : Type} `{C : !Collaborators World}.

(** The statement [m] makes only events that satisfy [ok], and leaves the
    task queue alone. *)
Definition emits {A} (ok : Event -> Prop) (m : M (World := World) A) : Prop :=
  forall s,
    exists evs,
      trace (m s).2 = trace s ++ evs /\
      Forall ok evs /\
      taskqueue (m s).2 = taskqueue s.

(** An event that belongs to the work on task [t]: a transfer goes to the
    neighbour the task is about (and, for a ProcessBundleTask, carries the
    bundle of the task), a debug line is about this task, and no other task
    is started. *)
Definition work_of (t : Task) (ev : Event) : Prop :=
  match ev with
  | EvTransfer e meta _ =>
      e = task_target t /\
      match t with
      | ProcessBundleTask bundle _ _ => meta = bundle
      | SearchNextBundleTask _ => True
      end
  | EvDebug (processing _) => False
  | EvDebug (terminated _) => False
  | EvDebug (aborted t' _) => t' = t
  | EvDebug (got_items _ e) => e = task_target t
  | _ => True
  end.

(** The tasks the events [evs] report as taken up, in order. *)
Fixpoint processed (evs : list Event) : list Task :=
  match evs with
  | [] => []
  | EvDebug (processing t) :: evs => t :: processed evs
  | _ :: evs => processed evs
  end.

(** The transfers among the events [evs], in order. *)
Fixpoint transfers (evs : list Event) : list (EID * MetaBundle * Protocol) :=
  match evs with
  | [] => []
  | EvTransfer e meta p :: evs => (e, meta, p) :: transfers evs
  | _ :: evs => transfers evs
  end.

(** A transfer that belongs to task [t]: it goes to the neighbour the task
    is about and, for a ProcessBundleTask, carries the bundle of the task. *)
Definition transfer_of (t : Task) (tr : EID * MetaBundle * Protocol) : Prop :=
  tr.1.1 = task_target t /\
  match t with
  | ProcessBundleTask bundle _ _ => tr.1.2 = bundle
  | SearchNextBundleTask _ => True
  end.

(** A transfer that belongs to one of the tasks [l]. *)
Definition transfer_of_some (l : list Task)
    (tr : EID * MetaBundle * Protocol) : Prop :=
  exists t, t ∈ l /\ transfer_of t tr.

(** The failure [ex] is named by a [catch] clause of the inner [try] that is
    written for the class of [t], and whether that clause writes a debug
    line. *)
Definition caught (t : Task) (ex : Exn) : bool :=
  match t, ex with
  | _, NoMoreTransfersAvailable
  | _, EntryNotFoundException
  | _, NodeNotAvailableException
  | _, bad_cast => true
  | SearchNextBundleTask _, NoBundleFoundException => true
  | ProcessBundleTask _ _ _, AlreadyInTransitException => true
  | ProcessBundleTask _ _ _, NoRouteKnownException => true
  | _, _ => false
  end.

Definition logged (ex : Exn) : bool :=
  match ex with
  | NoRouteKnownException | bad_cast => false
  | _ => true
  end.

(** A candidate of a routing result that may be sent to the neighbour of
    [entry] over one of the protocols [plist]. *)
Definition routable (entry : NeighborEntry) (plist : list Protocol)
    (c : MetaBundle * Protocol) : Prop :=
  passes_checks c.1 entry /\ c.2 ∈ plist.

End WorkNotions.

(** ** A small network on which the definitions are run *)

Module Scenario.

Inductive protocol := CONN_UNDEF | CONN_TCPIP | CONN_UDPIP | CONN_LOWPAN.

Inductive action := FILTER_ACCEPT | FILTER_REJECT.

#[export] Instance protocol_eq_dec : EqDecision protocol.
Proof. solve_decision. Defined.

#[export] Instance action_eq_dec : EqDecision action.
Proof. solve_decision. Defined.

(** An endpoint is a node number and an application number; two endpoints
    are on the same host when the node numbers agree. Node 0 is the local
    node, and application 0 is the node itself. *)
#[export] Instance domain : Domain := {|
  EID := nat * nat;
  sameHost := fun a b => bool_decide (a.1 = b.1);
  local := (0, 0);
  BundleID := nat;
  Node := nat * nat;
  getEID := fun n => n;
  Protocol := protocol;
  CONN_UNDEFINED := CONN_UNDEF;
  ACTION := action;
  ACCEPT := FILTER_ACCEPT;
|}.

(** The collaborators: a policy that accepts the protocols of [accepted]
    and remembers what it was asked, a fixed neighbourhood, a storage that
    shows its bundles in order, and a transfer service that refuses the
    bundles listed in [refused], remembers the others as [sent] and takes
    a transfer slot of the neighbour for each of them. The neighbour
    database is looked up as the spec describes it for the worker. *)
Record services := {
  accepted : list protocol;
  asked : list FilterContext;
  neighbors : list (nat * nat);
  supported : list protocol;
  storage : list MetaBundle;
  refused : list (nat * Exn);
  sent : list (EID * nat * protocol);
}.

Definition ask (table : TABLE) (context : FilterContext) (w : services)
    : action * services :=
  (match ctx_protocol context with
   | Some p => if bool_decide (p ∈ accepted w) then FILTER_ACCEPT
               else FILTER_REJECT
   | None => FILTER_REJECT
   end,
   {| accepted := accepted w; asked := asked w ++ [context];
      neighbors := neighbors w; supported := supported w;
      storage := storage w; refused := refused w; sent := sent w |}).

Fixpoint refusal (id : nat) (l : list (nat * Exn)) : option Exn :=
  match l with
  | [] => None
  | (id', ex) :: rest => if bool_decide (id = id') then Some ex
                         else refusal id rest
  end.

Definition take_slot (n : NeighborEntry) : NeighborEntry :=
  {| eid := eid n; known := known n;
     free_transfer_slots := N.pred (free_transfer_slots n);
     in_flight := N.succ (in_flight n) |}.

Definition send (e : EID) (meta : MetaBundle) (p : protocol)
    (m : gmap EID NeighborEntry) (w : services)
    : option Exn * gmap EID NeighborEntry * services :=
  match refusal (bundle_id meta) (refused w) with
  | Some ex => (Some ex, m, w)
  | None =>
      (None, alter take_slot e m,
       {| accepted := accepted w; asked := asked w;
          neighbors := neighbors w; supported := supported w;
          storage := storage w; refused := refused w;
          sent := sent w ++ [(e, bundle_id meta, p)] |})
  end.

(** The storage shows its bundles to the selector until [limit] of them
    are selected, and fails with NoBundleFound when none is. *)
Fixpoint select (filter : BundleFilter services) (candidates : list MetaBundle)
    (added : N) (result : RoutingResult) (w : services)
    : N * RoutingResult * services :=
  match candidates with
  | [] => (added, result, w)
  | meta :: rest =>
      if (limit filter <=? added)%N then (added, result, w)
      else
        let '((selected, result), w) := addIfSelected filter result meta w in
        select filter rest (if selected then (added + 1)%N else added)
          result w
  end.

Definition query (filter : BundleFilter services) (result : RoutingResult)
    (m : gmap EID NeighborEntry) (w : services)
    : (option Exn * RoutingResult) * gmap EID NeighborEntry * services :=
  let '(added, result, w) := select filter (storage w) 0%N result w in
  ((if (added =? 0)%N then Some NoBundleFoundException else None, result),
   m, w).

#[export] Instance collaborators : Collaborators services := {|
  policy := {| evaluate := ask |};
  getSupportedProtocols := fun _ w => supported w;
  getNeighbors := neighbors;
  db_get := lookup_or_fail;
  seeker_get := query;
  transferTo := send;
  isTransferThresholdReached := fun n => (0 <? free_transfer_slots n)%N;
|}.

(** The nodes. *)
Definition X : EID := (1, 0).
Definition Y : EID := (2, 0).
Definition Z : EID := (3, 0).

(** Bundles: [b1] for an application on [Y], [b2] the same with its hop
    limit used up, [b3] for a group, [b4] for this node, [b5] for another
    application on [Y]. *)
Definition b1 : MetaBundle :=
  {| bundle_id := 1; destination := (2, 1);
     destination_is_singleton := true; hopcount := 5%N |}.
Definition b2 : MetaBundle :=
  {| bundle_id := 2; destination := (2, 1);
     destination_is_singleton := true; hopcount := 0%N |}.
Definition b3 : MetaBundle :=
  {| bundle_id := 3; destination := (9, 1);
     destination_is_singleton := false; hopcount := 5%N |}.
Definition b4 : MetaBundle :=
  {| bundle_id := 4; destination := (0, 1);
     destination_is_singleton := true; hopcount := 5%N |}.
Definition b5 : MetaBundle :=
  {| bundle_id := 5; destination := (2, 2);
     destination_is_singleton := true; hopcount := 3%N |}.

(** The entry of [Y] with [holds] as its known bundles and [slots] free
    transfer slots. *)
Definition entry_Y (holds : gset nat) (slots : N) : NeighborEntry :=
  {| eid := Y; known := holds; free_transfer_slots := slots;
     in_flight := 0%N |}.

(** The neighbour database with an entry for each of [X], [Y] and [Z]:
    nothing known, two free slots. *)
Definition entry_for (e : EID) : NeighborEntry :=
  {| eid := e; known := ∅; free_transfer_slots := 2%N; in_flight := 0%N |}.

Definition known_neighbors : gmap EID NeighborEntry :=
  {[ X := entry_for X; Y := entry_for Y; Z := entry_for Z ]}.

(** A world whose policy accepts [accepts], with [X], [Y] and [Z] as
    neighbours, [stored] in the storage and the refusals [refuses]. *)
Definition network (accepts : list protocol) (stored : list MetaBundle)
    (refuses : list (nat * Exn)) : services :=
  {| accepted := accepts; asked := [];
     neighbors := [X; Y; Z];
     supported := [CONN_LOWPAN; CONN_TCPIP; CONN_UDPIP];
     storage := stored; refused := refuses; sent := [] |}.

(** A worker with the tasks [tasks] queued and the entries [entries]. *)
Definition worker (entries : gmap EID NeighborEntry) (tasks : list Task)
    (w : services) : Worker :=
  {| db := entries; db_locked := false; world := w;
     taskqueue := {| items := tasks; queue_aborted := false |};
     run_list := []; trace := [] |}.

(** A prepared statement with [parameters] parameters, numbered from 1,
    and the texts bound so far. Binding outside of the parameters binds
    nothing and gives the result code 25, inside it gives 0. *)
Record statement := {
  parameters : nat;
  bound : list (BinNums.Z * string);
}.

Definition bind_text (st : statement) (index : BinNums.Z) (text : string)
    (n : BinNums.Z) : BinNums.Z * statement :=
  if ((1 <=? index) && (index <=? Z.of_nat (parameters st)))%Z then
    (0%Z,
     {| parameters := parameters st;
        bound := (index,
                  if (n <? 0)%Z then text
                  else String.substring 0 (Z.to_nat n) text) :: bound st |})
  else (25%Z, st).

(** Renderings: a node is shown by a letter, a bundle by a fixed word. *)
#[export] Instance rendering : Rendering := {|
  getString := fun e =>
    "dtn://" +:+ String (Ascii.ascii_of_nat (97 + e.1)) EmptyString;
  getNode := fun e => (e.1, 0);
  bundle_toString := fun _ => "bundle";
  Stmt := statement;
  sqlite3_bind_text := bind_text;
|}.

End Scenario.

(** ** The routing decision *)

Section RoutingDecisionFacts.
Context `{D : Domain} {World : Type} `{P : !PolicyEvaluator World}.

Lemma setProtocol_routing_context n meta p q :
  setProtocol q (routing_context n meta p) = routing_context n meta q.
Proof. reflexivity. Qed.

Lemma check_paths_first_accept n meta plist :
  forall context w,
    (forall p, setProtocol p context = routing_context n meta p) ->
    exists r w',
      first_accept_wins
        (fun p => evaluate ROUTING (routing_context n meta p)) plist w r w' /\
      check_paths context plist w = (selection r, w').
Proof.
  induction plist as [|p rest IH]; intros context w Hctx; simpl.
  - exists None, w. split; [constructor | reflexivity].
  - rewrite Hctx.
    destruct (evaluate ROUTING (routing_context n meta p) w) as [a w1] eqn:Ha.
    destruct (decide (a = ACCEPT)) as [->|Hne].
    + exists (Some p), w1. split; [by constructor | reflexivity].
    + destruct (IH (routing_context n meta p) w1) as (r & w' & Hfa & Heq).
      { intros q. apply setProtocol_routing_context. }
      exists r, w'. split; [by econstructor | exact Heq].
Qed.

Lemma shouldRouteTo_passes meta n plist w :
  passes_checks meta n ->
  shouldRouteTo meta n plist w =
    check_paths
      (setMetaBundle meta (setRouting getTag (setPeer (eid n) new_context)))
      plist w.
Proof.
  intros (Hhop & Hsingle & Hlocal & Hpeer & Hknown).
  unfold shouldRouteTo.
  apply N.eqb_neq in Hhop. rewrite Hhop, Hsingle, Hlocal, Hpeer, Hknown.
  reflexivity.
Qed.

(** C1. For a bundle that passes the hop-count, singleton-destination and
    deduplication checks, [shouldRouteTo] asks the policy evaluator for the
    protocols of the list in their order, with the context {peer, routing
    extension, bundle, candidate protocol}, and answers [(true, P)] for the
    first protocol [P] the evaluator accepts; when the evaluator accepts
    none of them, or the list is empty, it answers "do not forward". *)
Theorem shouldRouteTo_first_accept_wins meta n plist w :
  passes_checks meta n ->
  (exists r w',
     first_accept_wins
       (fun p => evaluate ROUTING (routing_context n meta p)) plist w r w' /\
     shouldRouteTo meta n plist w = (selection r, w')) /\
  (plist = [] -> shouldRouteTo meta n plist w = (do_not_forward, w)).
Proof.
  intros Hpass. rewrite (shouldRouteTo_passes _ _ _ _ Hpass). split.
  - apply check_paths_first_accept. intros p. reflexivity.
  - intros ->. reflexivity.
Qed.

(** C2. [shouldRouteTo] answers "do not forward" when the destination of
    the bundle is not marked singleton, when it is on the local node, and
    when it is not on the node of the neighbour, for every neighbour entry
    and protocol list. *)
Theorem shouldRouteTo_only_singleton_for_neighbor meta n plist w :
  meta_get meta DESTINATION_IS_SINGLETON = false \/
  sameHost (destination meta) local = true \/
  sameHost (destination meta) (eid n) = false ->
  shouldRouteTo meta n plist w = (do_not_forward, w).
Proof.
  intros Hcase. unfold shouldRouteTo, do_not_forward.
  destruct (hopcount meta =? 0)%N; [reflexivity|].
  destruct (meta_get meta DESTINATION_IS_SINGLETON) eqn:Hsingle;
    [|reflexivity].
  destruct (sameHost (destination meta) local) eqn:Hlocal; [reflexivity|].
  destruct (sameHost (destination meta) (eid n)) eqn:Hpeer; simpl;
    [|reflexivity].
  destruct Hcase as [?|[?|?]]; discriminate.
Qed.

Lemma shouldRouteTo_hopcount_0 meta n plist w :
  hopcount meta = 0%N ->
  shouldRouteTo meta n plist w = (do_not_forward, w).
Proof. intros Hhop. unfold shouldRouteTo. rewrite Hhop. reflexivity. Qed.

Lemma shouldRouteTo_known meta n plist w :
  has n meta = true ->
  shouldRouteTo meta n plist w = (do_not_forward, w).
Proof.
  intros Hknown. unfold shouldRouteTo, do_not_forward.
  destruct (hopcount meta =? 0)%N; [reflexivity|].
  destruct (meta_get meta DESTINATION_IS_SINGLETON); [|reflexivity].
  destruct (sameHost (destination meta) local); [reflexivity|].
  destruct (sameHost (destination meta) (eid n)); simpl; [|reflexivity].
  rewrite Hknown. reflexivity.
Qed.

End RoutingDecisionFacts.

Section RoutingDecisionWithoutPolicy.
Context `{D : Domain} {World : Type} (P : PolicyEvaluator World).

(** C3. For a bundle whose hop-count is zero [shouldRouteTo] answers
    [(false, CONN_UNDEFINED)], for every neighbour entry and protocol list,
    and the policy evaluator is not asked: its state is as before, and an
    evaluator that records its calls has recorded none. *)
Theorem shouldRouteTo_hop_limit_exhausted meta n plist w :
  hopcount meta = 0%N ->
  shouldRouteTo meta n plist w = ((false, CONN_UNDEFINED), w) /\
  forall calls,
    shouldRouteTo (P := recording P) meta n plist (w, calls) =
      ((false, CONN_UNDEFINED), (w, calls)).
Proof.
  intros Hhop. split.
  - by apply shouldRouteTo_hopcount_0.
  - intros calls. by apply (shouldRouteTo_hopcount_0 (P := recording P)).
Qed.

Lemma shouldRouteTo_times_known meta n plist w k :
  has n meta = true ->
  shouldRouteTo_times k meta n plist w = (replicate k do_not_forward, w).
Proof.
  intros Hknown. induction k as [|k IH]; simpl; [reflexivity|].
  rewrite (shouldRouteTo_known _ _ _ _ Hknown), IH. reflexivity.
Qed.

(** C4. For a bundle the neighbour entry already knows ([n.has(meta)]),
    [shouldRouteTo] answers "do not forward" whatever the policy evaluator
    would answer (it is not asked), whether or not the bundle passes the
    earlier checks, and so does each of any number of repeated calls. *)
Theorem shouldRouteTo_known_bundle_rejected meta n plist w :
  has n meta = true ->
  shouldRouteTo meta n plist w = (do_not_forward, w) /\
  (forall calls,
     shouldRouteTo (P := recording P) meta n plist (w, calls) =
       (do_not_forward, (w, calls))) /\
  (forall k,
     shouldRouteTo_times k meta n plist w =
       (replicate k do_not_forward, w)).
Proof.
  intros Hknown. split; [|split].
  - by apply shouldRouteTo_known.
  - intros calls. by apply (shouldRouteTo_known (P := recording P)).
  - intros k. by apply shouldRouteTo_times_known.
Qed.

End RoutingDecisionWithoutPolicy.

(** ** The locking discipline of the worker *)

Section LockingFacts.
Context `{D : Domain} {World : Type} `{C : !Collaborators World}.

Lemma lock_held_after_app h evs1 evs2 :
  lock_held_after h (evs1 ++ evs2) =
    lock_held_after (lock_held_after h evs1) evs2.
Proof.
  revert h. induction evs1 as [|ev evs1 IH]; intros h; [reflexivity|].
  destruct ev; simpl; apply IH.
Qed.

Lemma transfers_unlocked_app h evs1 evs2 :
  transfers_unlocked h (evs1 ++ evs2) =
    transfers_unlocked h evs1 &&
    transfers_unlocked (lock_held_after h evs1) evs2.
Proof.
  revert h. induction evs1 as [|ev evs1 IH]; intros h; [reflexivity|].
  destruct ev; simpl; rewrite ?IH; try reflexivity.
  by rewrite andb_assoc.
Qed.

(** Statements that make no lock, unlock or transfer event. *)
Lemma lock_safe_mret {A} h post_throw (a : A) :
  lock_safe (World := World) h h post_throw (mret a).
Proof. intros s. exists []. by rewrite app_nil_r. Qed.

Lemma lock_safe_throw {A} h post (ex : Exn) :
  lock_safe (World := World) (A := A) h post h (throw ex).
Proof. intros s. exists []. by rewrite app_nil_r. Qed.

Lemma lock_safe_modify h post_throw f :
  (forall s, trace (f s) = trace s) ->
  (forall s, db_locked (f s) = db_locked s) ->
  lock_safe (World := World) h h post_throw (modify f).
Proof.
  intros Htrace Hlocked s. exists []. simpl.
  by rewrite Htrace, Hlocked, app_nil_r.
Qed.

Lemma lock_safe_reads {A} h post_throw (f : Worker -> A) :
  lock_safe (World := World) h h post_throw (reads f).
Proof. intros s. exists []. by rewrite app_nil_r. Qed.

Lemma lock_safe_debug h post_throw msg :
  lock_safe (World := World) h h post_throw (debug msg).
Proof. intros s. by exists [EvDebug msg]. Qed.

Lemma lock_safe_get h e create :
  lock_safe (World := World) h h h (get e create).
Proof.
  intros s. exists []. unfold get.
  destruct (db_get e create (db s)) as [[ex|entry] m]; simpl;
    by rewrite app_nil_r.
Qed.

Lemma lock_safe_route h meta entry plist :
  lock_safe (World := World) h h h (route meta entry plist).
Proof.
  intros s. exists []. unfold route.
  destruct (shouldRouteTo meta entry plist (world s)) as [ret w]; simpl.
  by rewrite app_nil_r.
Qed.

Lemma lock_safe_seek h filter :
  lock_safe (World := World) h h h (seek filter).
Proof.
  intros s. exists [EvSeek]. unfold seek.
  destruct (seeker_get filter _ _ _) as [[[[ex|] l] m] w]; by simpl.
Qed.

(** A transfer is safe only when the mutex is not held. *)
Lemma lock_safe_transfer e meta p :
  lock_safe (World := World) false false false (transfer e meta p).
Proof.
  intros s. exists [EvTransfer e meta p]. unfold transfer.
  destruct (transferTo e meta p _ _) as [[[ex|] m] w]; by simpl.
Qed.

Lemma lock_safe_bind {A B} a b c t (m : M A) (f : A -> M B) :
  lock_safe (World := World) a b t m ->
  (forall x, lock_safe b c t (f x)) ->
  lock_safe (World := World) a c t (m ≫= f).
Proof.
  intros Hm Hf s. unfold mbind, M_bind.
  destruct (Hm s) as (evs1 & Htr1 & Hun1 & Hheld1 & Hflag1).
  destruct (m s) as [[ex|x] s1]; simpl in *.
  - by exists evs1.
  - destruct (Hf x s1) as (evs2 & Htr2 & Hun2 & Hheld2 & Hflag2).
    exists (evs1 ++ evs2).
    rewrite Htr2, Htr1, app_assoc, transfers_unlocked_app,
      !lock_held_after_app, Hun1, Hheld1, Hflag2, Hflag1.
    rewrite Hun2. repeat split; try done.
Qed.

Lemma lock_safe_try_catch {A} a b c t (body : M A) handler :
  lock_safe (World := World) a c b body ->
  (forall ex, lock_safe b c t (handler ex)) ->
  lock_safe (World := World) a c t (try_catch body handler).
Proof.
  intros Hbody Hhandler s. unfold try_catch.
  destruct (Hbody s) as (evs1 & Htr1 & Hun1 & Hheld1 & Hflag1).
  destruct (body s) as [[ex|x] s1]; simpl in *.
  - destruct (Hhandler ex s1) as (evs2 & Htr2 & Hun2 & Hheld2 & Hflag2).
    exists (evs1 ++ evs2).
    rewrite Htr2, Htr1, app_assoc, transfers_unlocked_app,
      !lock_held_after_app, Hun1, Hheld1, Hflag2, Hflag1.
    rewrite Hun2. repeat split; try done.
  - by exists evs1.
Qed.

(** The block under [MutexLock]: whatever the mutex was before, it is held
    inside and released when the block is left. *)
Lemma lock_safe_with_lock {A} h post post_throw (body : M A) :
  lock_safe (World := World) true post post_throw body ->
  lock_safe (World := World) h false false (with_lock body).
Proof.
  intros Hbody s. unfold with_lock.
  destruct (Hbody (emit EvLock (set_locked true s)))
    as (evs & Htr & Hun & Hheld & Hflag).
  destruct (body _) as [r s1]; simpl in *.
  exists ([EvLock] ++ evs ++ [EvUnlock]).
  rewrite Htr, <- !app_assoc. split; [done|].
  rewrite transfers_unlocked_app, !lock_held_after_app. simpl.
  rewrite transfers_unlocked_app, Hun. simpl.
  by destruct r.
Qed.

Lemma lock_safe_transfer_all e l :
  lock_safe (World := World) false false false (transfer_all e l).
Proof.
  induction l as [|[meta p] rest IH]; simpl.
  - apply lock_safe_mret.
  - eapply lock_safe_bind; [|intros _; exact IH].
    eapply lock_safe_try_catch; [apply lock_safe_transfer|].
    intros []; first [apply lock_safe_mret | apply lock_safe_throw].
Qed.

Lemma lock_safe_search_next_bundle h e :
  lock_safe (World := World) h false false (search_next_bundle (SearchNextBundleTask e)).
Proof.
  unfold search_next_bundle. simpl.
  eapply lock_safe_bind; [apply lock_safe_mret|]. intros task_eid.
  eapply lock_safe_bind; [by apply lock_safe_modify|]. intros _.
  eapply lock_safe_bind.
  { eapply lock_safe_with_lock.
    eapply lock_safe_bind; [apply lock_safe_get|]. intros entry.
    destruct (negb _); [apply lock_safe_throw|].
    eapply lock_safe_bind; [apply lock_safe_reads|]. intros plist.
    apply lock_safe_seek. }
  intros _.
  eapply lock_safe_bind; [apply lock_safe_reads|]. intros l.
  eapply lock_safe_bind; [apply lock_safe_debug|]. intros _.
  apply lock_safe_transfer_all.
Qed.

Lemma lock_safe_process_bundle h bundle origin nexthop :
  lock_safe (World := World) h false false
    (process_bundle (ProcessBundleTask bundle origin nexthop)).
Proof.
  unfold process_bundle. simpl.
  eapply lock_safe_bind; [apply lock_safe_mret|]. intros [[b o] nh].
  eapply lock_safe_bind; [apply lock_safe_reads|]. intros plist.
  eapply lock_safe_bind.
  { eapply lock_safe_with_lock.
    eapply lock_safe_bind; [apply lock_safe_get|]. intros entry.
    eapply lock_safe_bind; [apply lock_safe_route|]. intros ret.
    destruct (negb _); [apply lock_safe_throw | apply lock_safe_mret]. }
  intros ret. apply lock_safe_transfer.
Qed.

Lemma lock_safe_search_catch h t ex :
  lock_safe (World := World) h h h (search_catch t ex).
Proof.
  destruct ex; simpl;
    first [apply lock_safe_debug | apply lock_safe_mret
          | apply lock_safe_throw].
Qed.

Lemma lock_safe_process_catch h t ex :
  lock_safe (World := World) h h h (process_catch t ex).
Proof.
  destruct ex; simpl;
    first [apply lock_safe_debug | apply lock_safe_mret
          | apply lock_safe_throw].
Qed.

(** A task of the other class leaves a block by [bad_cast], which the
    block catches without a trace. *)
Lemma search_block_other_task bundle origin nexthop (s : Worker) :
  let t := ProcessBundleTask bundle origin nexthop in
  try_catch (search_next_bundle t) (search_catch t) s = (inr tt, s).
Proof. reflexivity. Qed.

Lemma process_block_other_task e (s : Worker) :
  let t := SearchNextBundleTask e in
  try_catch (process_bundle t) (process_catch t) s = (inr tt, s).
Proof. reflexivity. Qed.

Lemma lock_safe_ext {A} a b t (m m' : M A) :
  (forall s, m s = m' s) ->
  lock_safe (World := World) a b t m' ->
  lock_safe (World := World) a b t m.
Proof. intros Hext Hm s. rewrite Hext. apply Hm. Qed.

Lemma lock_safe_run_task h t :
  lock_safe (World := World) h false false (run_task t).
Proof.
  unfold run_task.
  eapply lock_safe_bind; [apply lock_safe_debug|]. intros _.
  destruct t as [e|bundle origin nexthop].
  - eapply lock_safe_bind.
    + eapply lock_safe_try_catch; [apply lock_safe_search_next_bundle|].
      intros ex. apply lock_safe_search_catch.
    + intros _.
      eapply lock_safe_ext; [apply process_block_other_task|].
      apply (lock_safe_mret (A := unit)).
  - eapply lock_safe_bind.
    + eapply lock_safe_ext; [apply search_block_other_task|].
      apply (lock_safe_mret (A := unit) h).
    + intros _.
      eapply lock_safe_try_catch; [apply lock_safe_process_bundle|].
      intros ex. apply lock_safe_process_catch.
Qed.

End LockingFacts.

(** ** What the worker does to the neighbour database *)

Section DatabaseFacts.
Context `{D : Domain} {World : Type} `{C : !Collaborators World}.
Variable I : gmap EID NeighborEntry -> Prop.
Hypothesis get_keeps : forall e m, I m -> I (db_get e true m).2.
Hypothesis seeker_keeps : forall f l m w, I m -> I (seeker_get f l m w).1.2.
Hypothesis transfer_keeps :
  forall e meta p m w, I m -> I (transferTo e meta p m w).1.2.

Lemma db_keeps_mret {A} (a : A) : db_keeps (World := World) I (mret a).
Proof. by intros s. Qed.

Lemma db_keeps_throw {A} ex : db_keeps (World := World) (A := A) I (throw ex).
Proof. by intros s. Qed.

Lemma db_keeps_reads {A} (f : Worker -> A) :
  db_keeps (World := World) I (reads f).
Proof. by intros s. Qed.

Lemma db_keeps_debug msg : db_keeps (World := World) I (debug msg).
Proof. by intros s. Qed.

Lemma db_keeps_clear_list :
  db_keeps (World := World) I (modify (set_run_list [])).
Proof. by intros s. Qed.

Lemma db_keeps_get e : db_keeps (World := World) I (get e true).
Proof.
  intros s Hs. unfold get. specialize (get_keeps e (db s) Hs).
  by destruct (db_get e true (db s)).
Qed.

Lemma db_keeps_route meta entry plist :
  db_keeps (World := World) I (route meta entry plist).
Proof.
  intros s. unfold route. by destruct (shouldRouteTo meta entry plist _).
Qed.

Lemma db_keeps_seek filter : db_keeps (World := World) I (seek filter).
Proof.
  intros s Hs. unfold seek.
  specialize (seeker_keeps filter (run_list (emit EvSeek s))
                (db (emit EvSeek s)) (world (emit EvSeek s)) Hs).
  by destruct (seeker_get filter _ _ _) as [[[[ex|] l] m] w].
Qed.

Lemma db_keeps_transfer e meta p :
  db_keeps (World := World) I (transfer e meta p).
Proof.
  intros s Hs. unfold transfer.
  specialize (transfer_keeps e meta p (db (emit (EvTransfer e meta p) s))
                (world (emit (EvTransfer e meta p) s)) Hs).
  by destruct (transferTo e meta p _ _) as [[[ex|] m] w].
Qed.

Lemma db_keeps_bind {A B} (m : M A) (k : A -> M B) :
  db_keeps I m -> (forall x, db_keeps I (k x)) ->
  db_keeps (World := World) I (m ≫= k).
Proof.
  intros Hm Hk s Hs. unfold mbind, M_bind. specialize (Hm s Hs).
  destruct (m s) as [[ex|x] s1]; [done|]. by apply Hk.
Qed.

Lemma db_keeps_try_catch {A} (body : M A) handler :
  db_keeps I body -> (forall ex, db_keeps I (handler ex)) ->
  db_keeps (World := World) I (try_catch body handler).
Proof.
  intros Hbody Hhandler s Hs. unfold try_catch. specialize (Hbody s Hs).
  destruct (body s) as [[ex|x] s1]; [|done]. by apply Hhandler.
Qed.

Lemma db_keeps_with_lock {A} (body : M A) :
  db_keeps I body -> db_keeps (World := World) I (with_lock body).
Proof.
  intros Hbody s Hs. unfold with_lock.
  specialize (Hbody (emit EvLock (set_locked true s)) Hs).
  by destruct (body _) as [r s1].
Qed.

Lemma db_keeps_transfer_all e l :
  db_keeps (World := World) I (transfer_all e l).
Proof.
  induction l as [|[meta p] rest IH]; simpl; [apply db_keeps_mret|].
  apply db_keeps_bind; [|intros _; exact IH].
  apply db_keeps_try_catch; [apply db_keeps_transfer|].
  intros []; first [apply db_keeps_mret | apply db_keeps_throw].
Qed.

Lemma db_keeps_search_next_bundle t :
  db_keeps (World := World) I (search_next_bundle t).
Proof.
  unfold search_next_bundle.
  apply db_keeps_bind.
  { destruct t; [apply db_keeps_mret | apply db_keeps_throw]. }
  intros task_eid.
  apply db_keeps_bind; [apply db_keeps_clear_list|]. intros _.
  apply db_keeps_bind.
  - apply db_keeps_with_lock.
    apply db_keeps_bind; [apply db_keeps_get|]. intros entry.
    destruct (negb _); [apply db_keeps_throw|].
    apply db_keeps_bind; [apply db_keeps_reads|]. intros plist.
    apply db_keeps_seek.
  - intros _.
    apply db_keeps_bind; [apply db_keeps_reads|]. intros l.
    apply db_keeps_bind; [apply db_keeps_debug|]. intros _.
    apply db_keeps_transfer_all.
Qed.

Lemma db_keeps_process_bundle t :
  db_keeps (World := World) I (process_bundle t).
Proof.
  unfold process_bundle.
  apply db_keeps_bind.
  { destruct t; [apply db_keeps_throw | apply db_keeps_mret]. }
  intros [[bundle origin] nexthop].
  apply db_keeps_bind; [apply db_keeps_reads|]. intros plist.
  apply db_keeps_bind.
  - apply db_keeps_with_lock.
    apply db_keeps_bind; [apply db_keeps_get|]. intros entry.
    apply db_keeps_bind; [apply db_keeps_route|]. intros ret.
    destruct (negb _); [apply db_keeps_throw | apply db_keeps_mret].
  - intros ret. apply db_keeps_transfer.
Qed.

Lemma db_keeps_run_task t : db_keeps (World := World) I (run_task t).
Proof.
  unfold run_task.
  apply db_keeps_bind; [apply db_keeps_debug|]. intros _.
  apply db_keeps_bind.
  - apply db_keeps_try_catch; [apply db_keeps_search_next_bundle|].
    intros ex.
    destruct ex; first [apply db_keeps_debug | apply db_keeps_mret
                       | apply db_keeps_throw].
  - intros _.
    apply db_keeps_try_catch; [apply db_keeps_process_bundle|].
    intros ex.
    destruct ex; first [apply db_keeps_debug | apply db_keeps_mret
                       | apply db_keeps_throw].
Qed.

Lemma db_keeps_run_iteration (s : Worker) :
  I (db s) -> I (db (run_iteration s).2).
Proof.
  intros Hs. unfold run_iteration.
  destruct (poll (taskqueue s)) as [| |t q]; [done..|].
  pose proof (db_keeps_run_task t (set_taskqueue q s) Hs) as Ht.
  by destruct (run_task t (set_taskqueue q s)) as [[ex|[]] s1].
Qed.

Lemma db_keeps_run fuel :
  forall s : Worker, I (db s) -> I (db (run fuel s).2).
Proof.
  induction fuel as [|fuel IH]; intros s Hs; simpl; [done|].
  pose proof (db_keeps_run_iteration s Hs) as H1.
  destruct (run_iteration s) as [[] s1]; simpl in *; try done.
  by apply IH.
Qed.

End DatabaseFacts.

(** ** The worker loop *)

Section WorkerFacts.
Context `{D : Domain} {World : Type} `{C : !Collaborators World}.

Lemma try_catch_thrown {A} (body : M (World := World) A) handler s s1 ex :
  body s = (inl ex, s1) -> try_catch body handler s = handler ex s1.
Proof. intros Hbody. unfold try_catch. by rewrite Hbody. Qed.

Lemma transfer_all_tolerated e l :
  forall s : Worker,
    Forall tolerated (transfer_replies e l (db s) (world s)) ->
    transfer_all e l s =
      (inr tt,
       {| db := (after_transfers e l (db s) (world s)).1;
          db_locked := db_locked s;
          world := (after_transfers e l (db s) (world s)).2;
          taskqueue := taskqueue s; run_list := run_list s;
          trace := trace s ++ transfer_events e l |}).
Proof.
  induction l as [|[meta p] rest IH]; intros s Hreplies.
  - destruct s. simpl. by rewrite app_nil_r.
  - revert Hreplies. simpl. unfold mbind, M_bind, try_catch, transfer. simpl.
    destruct (transferTo e meta p (db s) (world s)) as [[reply m] w] eqn:Hreply.
    intros [Hfirst Hrest]%Forall_cons.
    assert (Hnext :
      transfer_all e rest
        (set_world w (set_db (fun _ => m) (emit (EvTransfer e meta p) s))) =
        (inr tt,
         {| db := (after_transfers e rest m w).1;
            db_locked := db_locked s;
            world := (after_transfers e rest m w).2;
            taskqueue := taskqueue s; run_list := run_list s;
            trace := trace s ++ transfer_events e ((meta, p) :: rest) |})).
    { rewrite IH by exact Hrest. simpl. by rewrite <- app_assoc. }
    destruct Hfirst as [->| ->]; simpl; exact Hnext.
Qed.

(** C7. In the transfer phase of a SearchNextBundleTask a transfer that
    fails with AlreadyInTransit is passed over and the loop over the
    candidates goes on: when the search has found the candidates [l] and the
    transfers fail in no other way, the iteration calls [transferTo] for
    every candidate of [l], in the order of the list, and the worker goes on
    with the next task. *)
Theorem already_in_transit_skips_one_candidate
    (s : Worker) e q entry m l m1 w1 :
  poll (taskqueue s) = PollTask (SearchNextBundleTask e) q ->
  db_get e true (db s) = (inr entry, m) ->
  isTransferThresholdReached entry = true ->
  seeker_get
    (BundleFilter_new entry (getSupportedProtocols (eid entry) (world s)))
    [] m (world s) = ((None, l), m1, w1) ->
  Forall tolerated (transfer_replies e l m1 w1) ->
  run_iteration s =
    (Yielded,
     {| db := (after_transfers e l m1 w1).1; db_locked := false;
        world := (after_transfers e l m1 w1).2;
        taskqueue := q; run_list := l;
        trace := trace s ++
          [EvDebug (processing (SearchNextBundleTask e)); EvLock; EvSeek;
           EvUnlock; EvDebug (got_items (length l) e)] ++
          transfer_events e l |}).
Proof.
  intros Hpoll Hget Hslots Hseek Hreplies.
  unfold run_iteration. rewrite Hpoll.
  unfold run_task, search_next_bundle, try_catch, with_lock, get, seek,
    mbind, M_bind. simpl.
  rewrite Hget. simpl. rewrite Hslots. simpl. rewrite Hseek. simpl.
  rewrite transfer_all_tolerated by exact Hreplies. unfold_state.
  by rewrite <- !app_assoc.
Qed.

(** C6. A SearchNextBundleTask for a neighbour whose transfer threshold is
    not reached is given up inside the locked block, before the storage is
    queried and before any transfer: the iteration makes the events
    lock, unlock and the debug line of the aborted task and nothing else,
    the collaborators are not touched, and the loop goes on. *)
Theorem search_without_free_slots_is_dropped s e q entry m :
  poll (taskqueue s) = PollTask (SearchNextBundleTask e) q ->
  db_get e true (db s) = (inr entry, m) ->
  isTransferThresholdReached entry = false ->
  run_iteration s =
    (Yielded,
     {| db := m; db_locked := false; world := world s;
        taskqueue := q; run_list := [];
        trace := trace s ++
          [EvDebug (processing (SearchNextBundleTask e)); EvLock; EvUnlock;
           EvDebug
             (aborted (SearchNextBundleTask e) NoMoreTransfersAvailable)]
     |}).
Proof.
  intros Hpoll Hget Hslots.
  unfold run_iteration. rewrite Hpoll.
  unfold run_task, search_next_bundle, try_catch, with_lock, get,
    mbind, M_bind. simpl.
  rewrite Hget. simpl. rewrite Hslots. simpl. unfold_state.
  by rewrite <- !app_assoc.
Qed.

Lemma run_task_locking t (s : Worker) held :
  exists evs,
    trace (run_task t s).2 = trace s ++ evs /\
    transfers_unlocked held evs = true /\
    lock_held_after held evs = false /\
    db_locked (run_task t s).2 = false.
Proof.
  destruct (lock_safe_run_task held t s) as (evs & Htr & Hun & Hheld & _).
  destruct (lock_safe_run_task (db_locked s) t s)
    as (evs' & Htr' & _ & Hheld' & Hflag).
  rewrite Htr in Htr'. apply app_inv_head in Htr' as <-.
  exists evs. repeat split; try done.
  - by destruct (run_task t s).1.
  - rewrite Hflag, Hheld'. by destruct (run_task t s).1.
Qed.

Lemma run_iteration_locking (s : Worker) :
  exists evs,
    trace (run_iteration s).2 = trace s ++ evs /\
    transfers_unlocked false evs = true /\
    lock_held_after false evs = false.
Proof.
  unfold run_iteration. destruct (poll (taskqueue s)) as [| |t q].
  - exists []. by rewrite app_nil_r.
  - by eexists [_].
  - destruct (run_task_locking t (set_taskqueue q s) false)
      as (evs & Htr & Hun & Hheld & _).
    destruct (run_task t (set_taskqueue q s)) as [[ex|[]] s1]; simpl in *.
    + exists (evs ++ [EvDebug (terminated ex)]).
      rewrite Htr, app_assoc, transfers_unlocked_app, lock_held_after_app,
        Hun, Hheld. done.
    + by exists evs.
Qed.

Lemma run_locking fuel :
  forall s : Worker,
    exists evs,
      trace (run fuel s).2 = trace s ++ evs /\
      transfers_unlocked false evs = true /\
      lock_held_after false evs = false.
Proof.
  induction fuel as [|fuel IH]; intros s; simpl.
  - exists []. by rewrite app_nil_r.
  - destruct (run_iteration_locking s) as (evs1 & Htr1 & Hun1 & Hheld1).
    destruct (run_iteration s) as [[] s1]; simpl in *;
      try (by exists evs1).
    destruct (IH s1) as (evs2 & Htr2 & Hun2 & Hheld2).
    exists (evs1 ++ evs2).
    rewrite Htr2, Htr1, app_assoc, transfers_unlocked_app,
      lock_held_after_app, Hun1, Hheld1. done.
Qed.

(** C9. The database mutex is released before [transferTo] is called: in
    the events of a task of either class every transfer happens while the
    mutex is not held, and the mutex is free when the task is done; so it
    is for any number of iterations of the loop. *)
Theorem transfers_happen_outside_the_lock :
  (forall t (s : Worker) held,
     exists evs,
       trace (run_task t s).2 = trace s ++ evs /\
       transfers_unlocked held evs = true /\
       lock_held_after held evs = false /\
       db_locked (run_task t s).2 = false) /\
  (forall fuel (s : Worker),
     exists evs,
       trace (run fuel s).2 = trace s ++ evs /\
       transfers_unlocked false evs = true /\
       lock_held_after false evs = false).
Proof.
  split.
  - intros t s held. apply run_task_locking.
  - intros fuel s. apply run_locking.
Qed.

End WorkerFacts.

(** ** The event adapters *)

Section EventFacts.
Context `{D : Domain} {World : Type} `{C : !Collaborators World}.

Lemma queue_for_neighbors_offers peer meta nl :
  forall q,
    queue_for_neighbors peer meta nl q =
      {| items := items q ++ offers peer meta nl;
         queue_aborted := queue_aborted q |}.
Proof.
  unfold offers.
  induction nl as [|n rest IH]; intros q; simpl.
  - destruct q. simpl. by rewrite app_nil_r.
  - rewrite IH. case_bool_decide as Hpeer; simpl.
    + by rewrite filter_cons_False by (by intros ?).
    + rewrite filter_cons_True by done. simpl. by rewrite <- app_assoc.
Qed.

Lemma tasks_for_cons e t l :
  tasks_for e (t :: l) =
    (if decide (task_target t = e) then S (tasks_for e l)
     else tasks_for e l).
Proof.
  unfold tasks_for. rewrite filter_cons. by case_decide.
Qed.

Lemma offers_cons peer meta n nl :
  offers peer meta (n :: nl) =
    if decide (getEID n = peer) then offers peer meta nl
    else ProcessBundleTask meta peer (getEID n) :: offers peer meta nl.
Proof.
  unfold offers. rewrite filter_cons.
  case_decide as Hne; case_decide as Heq; done.
Qed.

Lemma tasks_for_absent peer meta e nl :
  e ∉ getEID <$> nl -> tasks_for e (offers peer meta nl) = 0.
Proof.
  induction nl as [|n rest IH]; intros Hnotin; [reflexivity|].
  rewrite fmap_cons, not_elem_of_cons in Hnotin.
  destruct Hnotin as [Hne Hrest].
  rewrite offers_cons. case_decide; [by apply IH|].
  rewrite tasks_for_cons. simpl. case_decide; [congruence | by apply IH].
Qed.

Lemma tasks_for_peer peer meta nl :
  tasks_for peer (offers peer meta nl) = 0.
Proof.
  induction nl as [|n rest IH]; [reflexivity|].
  rewrite offers_cons. case_decide; [exact IH|].
  rewrite tasks_for_cons. simpl. by case_decide.
Qed.

Lemma tasks_for_neighbor peer meta n nl :
  NoDup (getEID <$> nl) -> n ∈ nl -> getEID n <> peer ->
  tasks_for (getEID n) (offers peer meta nl) = 1.
Proof.
  induction nl as [|n' rest IH]; intros Hnodup Hin Hne.
  - by apply elem_of_nil in Hin.
  - rewrite fmap_cons in Hnodup. apply NoDup_cons in Hnodup as [Hfresh Hnodup].
    rewrite offers_cons.
    destruct (decide (getEID n' = getEID n)) as [Heq|Hother].
    + rewrite decide_False by congruence.
      rewrite tasks_for_cons. simpl. rewrite decide_True by done.
      rewrite <- Heq, tasks_for_absent; done.
    + apply elem_of_cons in Hin as [->|Hin]; [done|].
      case_decide; [by apply IH|].
      rewrite tasks_for_cons. simpl. rewrite decide_False by done.
      by apply IH.
Qed.

(** C8. When a bundle is queued for delivery towards [peer], the adapter
    appends to the task queue one [ProcessBundleTask (meta, peer, N)] for
    each known neighbour [N] other than [peer], in the order of the
    neighbour set, and nothing else: with neighbours of distinct EIDs there
    is exactly one new task for every neighbour other than [peer] and none
    for [peer]. *)
Theorem bundle_queued_offers_other_neighbors peer meta (s : Worker) :
  NoDup (getEID <$> getNeighbors (world s)) ->
  let pushed := offers peer meta (getNeighbors (world s)) in
  items (taskqueue (eventBundleQueued peer meta s)) =
    items (taskqueue s) ++ pushed /\
  (forall n, n ∈ getNeighbors (world s) -> getEID n <> peer ->
     tasks_for (getEID n) pushed = 1 /\
     ProcessBundleTask meta peer (getEID n) ∈ pushed) /\
  tasks_for peer pushed = 0 /\
  (forall t, t ∈ pushed ->
     exists n, n ∈ getNeighbors (world s) /\ getEID n <> peer /\
               t = ProcessBundleTask meta peer (getEID n)).
Proof.
  intros Hnodup pushed. repeat split.
  - unfold eventBundleQueued. simpl.
    by rewrite queue_for_neighbors_offers.
  - by apply tasks_for_neighbor.
  - unfold pushed, offers. apply list_elem_of_fmap. exists n.
    split; [done|]. by apply list_elem_of_filter.
  - apply tasks_for_peer.
  - unfold pushed, offers. intros t Ht.
    apply list_elem_of_fmap in Ht as (n & -> & Hn).
    apply list_elem_of_filter in Hn as [Hne Hin]. by exists n.
Qed.

End EventFacts.

(** ** More on the routing decision and the selector *)

Section RoutingDecisionMore.
Context `{D : Domain} {World : Type} (P : PolicyEvaluator World).

Lemma setProtocol_twice (context : FilterContext) p q :
  setProtocol q (setProtocol p context) = setProtocol q context.
Proof. reflexivity. Qed.

Lemma check_paths_sound plist :
  forall context w,
    let r := check_paths context plist w in
    r.1 = do_not_forward \/
    exists p w0,
      r.1 = (true, p) /\ p ∈ plist /\
      evaluate ROUTING (setProtocol p context) w0 = (ACCEPT, r.2).
Proof.
  induction plist as [|p rest IH]; intros context w; simpl; [by left|].
  destruct (evaluate ROUTING (setProtocol p context) w) as [a w1] eqn:Ha.
  destruct (decide (a = ACCEPT)) as [->|Hne]; simpl.
  - right. exists p, w. split; [done|]. split; [by left | done].
  - destruct (IH (setProtocol p context) w1) as [Hno|(q & w0 & Hr & Hin & Hq)].
    + by left.
    + right. exists q, w0. split; [done|]. split; [by right | done].
Qed.

Lemma shouldRouteTo_sound meta n plist w :
  let r := shouldRouteTo meta n plist w in
  r.1 = (false, CONN_UNDEFINED) \/
  exists p w0,
    r.1 = (true, p) /\ p ∈ plist /\ passes_checks meta n /\
    evaluate ROUTING (routing_context n meta p) w0 = (ACCEPT, r.2).
Proof.
  unfold shouldRouteTo.
  destruct (hopcount meta =? 0)%N eqn:Hhop; [by left|].
  destruct (meta_get meta DESTINATION_IS_SINGLETON) eqn:Hsingle; [|by left].
  destruct (sameHost (destination meta) local) eqn:Hlocal; [by left|].
  destruct (sameHost (destination meta) (eid n)) eqn:Hpeer; simpl; [|by left].
  destruct (has n meta) eqn:Hknown; [by left|].
  destruct (check_paths_sound plist
              (setMetaBundle meta (setRouting getTag (setPeer (eid n) new_context)))
              w) as [Hno|(p & w0 & Hr & Hin & Hp)].
  - by left.
  - right. exists p, w0. split; [done|]. split; [done|]. split; [|done].
    split; [by apply N.eqb_neq | done].
Qed.

(** X1. [shouldRouteTo] answers either "do not forward", with protocol
    CONN_UNDEFINED, or [(true, p)] for a protocol [p] of the list that the
    evaluator has accepted for this bundle and peer, and then the bundle
    passes the hop-count, singleton, addressee and known-bundle checks. *)
Theorem shouldRouteTo_accepts_only_routable meta n plist w :
  let r := shouldRouteTo meta n plist w in
  r.1 = (false, CONN_UNDEFINED) \/
  exists p w0,
    r.1 = (true, p) /\ p ∈ plist /\ passes_checks meta n /\
    evaluate ROUTING (routing_context n meta p) w0 = (ACCEPT, r.2).
Proof. apply shouldRouteTo_sound. Qed.

(** X2. The decision reads the neighbour entry only for its EID and its
    known bundles: entries that agree on these get the same answer, whatever
    their transfer slots. *)
Theorem shouldRouteTo_ignores_transfer_slots meta n1 n2 plist w :
  eid n1 = eid n2 -> known n1 = known n2 ->
  shouldRouteTo meta n1 plist w = shouldRouteTo meta n2 plist w.
Proof.
  intros Heid Hknown. unfold shouldRouteTo, has. by rewrite Heid, Hknown.
Qed.

Lemma check_paths_recording plist :
  forall context w calls,
    let r := check_paths (P := recording P) context plist (w, calls) in
    let r0 := check_paths context plist w in
    r.1 = r0.1 /\ r.2.1 = r0.2 /\
    exists asked rest,
      plist = asked ++ rest /\
      r.2.2 = calls ++ ((fun p => (ROUTING, setProtocol p context)) <$> asked) /\
      (forall p, r0.1 = (true, p) -> last asked = Some p) /\
      (r0.1.1 = false -> rest = []).
Proof.
  induction plist as [|p rest IH]; intros context w calls; simpl.
  - split; [done|]. split; [done|].
    exists [], []. split; [done|]. split; [by rewrite app_nil_r|].
    split; [intros p [=] | done].
  - destruct (evaluate ROUTING (setProtocol p context) w) as [a w1] eqn:Ha.
    simpl. destruct (decide (a = ACCEPT)) as [->|Hne]; simpl.
    + split; [done|]. split; [done|].
      exists [p], rest. split; [done|]. split; [done|]. split; [|done].
      intros q [= <-]. reflexivity.
    + destruct (IH (setProtocol p context) w1
                  (calls ++ [(ROUTING, setProtocol p context)]))
        as (Hr & Hw & asked & rest' & -> & Hcalls & Hlast & Hall).
      split; [exact Hr|]. split; [exact Hw|].
      exists (p :: asked), rest'. split; [done|]. split.
      * rewrite Hcalls, <- app_assoc. reflexivity.
      * split; [|exact Hall].
        intros q Hq. specialize (Hlast q Hq).
        destruct asked; [done|]. exact Hlast.
Qed.

(** X3. Recording the calls of the evaluator does not change the decision.
    The calls [shouldRouteTo] makes are for the table ROUTING and for the
    contexts {peer, tag of this extension, bundle, protocol} of an initial
    part of the protocol list, in its order, one call each: the part ends
    with the selected protocol, and is the whole list when nothing is
    selected and the evaluator was reached. *)
Theorem shouldRouteTo_calls_of_the_evaluator meta n plist w calls :
  let r := shouldRouteTo (P := recording P) meta n plist (w, calls) in
  let r0 := shouldRouteTo meta n plist w in
  r.1 = r0.1 /\ r.2.1 = r0.2 /\
  exists asked rest,
    plist = asked ++ rest /\
    r.2.2 = calls ++ ((fun p => (ROUTING, routing_context n meta p)) <$> asked) /\
    (forall p, r0.1 = (true, p) -> last asked = Some p) /\
    (passes_checks meta n -> r0.1.1 = false -> asked = plist).
Proof.
  unfold shouldRouteTo.
  assert (Hskip : forall Hfails : ~ passes_checks meta n,
    (do_not_forward, (w, calls)).1 = (do_not_forward, w).1 /\
    (do_not_forward, (w, calls)).2.1 = (do_not_forward, w).2 /\
    exists asked rest,
      plist = asked ++ rest /\
      (do_not_forward, (w, calls)).2.2 =
        calls ++ ((fun p => (ROUTING, routing_context n meta p)) <$> asked) /\
      (forall p, (do_not_forward, w).1 = (true, p) -> last asked = Some p) /\
      (passes_checks meta n -> (do_not_forward, w).1.1 = false ->
       asked = plist)).
  { intros Hfails. split; [done|]. split; [done|].
    exists [], plist. simpl. rewrite app_nil_r.
    split; [done|]. split; [done|]. split; [intros p [=] | by intros Hpass]. }
  destruct (hopcount meta =? 0)%N eqn:Hhop.
  { apply Hskip. intros (Hne & _). apply N.eqb_neq in Hne. congruence. }
  destruct (meta_get meta DESTINATION_IS_SINGLETON) eqn:Hsingle.
  2:{ apply Hskip. intros (_ & Hs & _). congruence. }
  destruct (sameHost (destination meta) local) eqn:Hlocal.
  { apply Hskip. intros (_ & _ & Hl & _). congruence. }
  destruct (sameHost (destination meta) (eid n)) eqn:Hpeer; simpl.
  2:{ apply Hskip. intros (_ & _ & _ & Hp & _). congruence. }
  destruct (has n meta) eqn:Hknown.
  { apply Hskip. intros (_ & _ & _ & _ & Hk). congruence. }
  destruct (check_paths_recording plist
              (setMetaBundle meta (setRouting getTag (setPeer (eid n) new_context)))
              w calls)
    as (Hr & Hw & asked & rest & Hsplit & Hcalls & Hlast & Hall).
  split; [exact Hr|]. split; [exact Hw|].
  exists asked, rest. split; [exact Hsplit|]. split; [exact Hcalls|].
  split; [exact Hlast|].
  intros _ Hfalse. rewrite Hsplit, (Hall Hfalse). by rewrite app_nil_r.
Qed.

End RoutingDecisionMore.

Section SelectorMore.
Context `{D : Domain} {World : Type} `{C : !Collaborators World}.

(** X4. The selector [run] gives to the storage offers as many places as the
    entry has free transfer slots, and [addIfSelected] keeps the result it is
    given and adds at most the considered bundle at its end: it answers true
    exactly when it has added it, with a protocol of the list, and then the
    bundle passes the checks of the routing decision. A result of routable
    candidates stays one. *)
Theorem addIfSelected_adds_only_routable entry plist result meta (w : World) :
  let filter := BundleFilter_new entry plist in
  let r := addIfSelected filter result meta w in
  limit filter = free_transfer_slots entry /\
  ((r.1.1 = false /\ r.1.2 = result) \/
   (r.1.1 = true /\
    exists p, r.1.2 = result ++ [(meta, p)] /\ routable entry plist (meta, p))) /\
  (Forall (routable entry plist) result ->
   Forall (routable entry plist) r.1.2).
Proof.
  simpl.
  destruct (shouldRouteTo_sound policy meta entry plist w)
    as [Hno|(p & w0 & Hr & Hin & Hpass & _)].
  - destruct (shouldRouteTo meta entry plist w) as [[sel q] w1].
    simpl in *. injection Hno as -> ->. simpl.
    split; [done|]. split; [by left | done].
  - destruct (shouldRouteTo meta entry plist w) as [[sel q] w1].
    simpl in *. injection Hr as -> ->. simpl.
    split; [done|]. split.
    + right. split; [done|]. by exists p.
    + intros Hall. apply Forall_app. split; [done|].
      by apply Forall_singleton.
Qed.

End SelectorMore.

(** ** The work done on a task *)

Section WorkFacts.
Context `{D : Domain} {World : Type} `{C : !Collaborators World}.
Variable ok : Event -> Prop.

Lemma emits_mret {A} (a : A) : emits (World := World) ok (mret a).
Proof. intros s. exists []. by rewrite app_nil_r. Qed.

Lemma emits_throw {A} ex : emits (World := World) (A := A) ok (throw ex).
Proof. intros s. exists []. by rewrite app_nil_r. Qed.

Lemma emits_reads {A} (f : Worker -> A) : emits (World := World) ok (reads f).
Proof. intros s. exists []. by rewrite app_nil_r. Qed.

Lemma emits_clear_list : emits (World := World) ok (modify (set_run_list [])).
Proof. intros s. exists []. by rewrite app_nil_r. Qed.

Lemma emits_debug msg :
  ok (EvDebug msg) -> emits (World := World) ok (debug msg).
Proof. intros Hok s. exists [EvDebug msg]. by rewrite Forall_singleton. Qed.

Lemma emits_get e create : emits (World := World) ok (get e create).
Proof.
  intros s. exists []. unfold get.
  destruct (db_get e create (db s)) as [r m]. by rewrite app_nil_r.
Qed.

Lemma emits_route meta entry plist :
  emits (World := World) ok (route meta entry plist).
Proof.
  intros s. exists []. unfold route.
  destruct (shouldRouteTo meta entry plist (world s)) as [ret w].
  by rewrite app_nil_r.
Qed.

Lemma emits_seek filter :
  ok EvSeek -> emits (World := World) ok (seek filter).
Proof.
  intros Hok s. exists [EvSeek]. unfold seek.
  destruct (seeker_get filter _ _ _) as [[[[ex|] l] m] w];
    by rewrite Forall_singleton.
Qed.

Lemma emits_transfer e meta p :
  ok (EvTransfer e meta p) -> emits (World := World) ok (transfer e meta p).
Proof.
  intros Hok s. exists [EvTransfer e meta p]. unfold transfer.
  destruct (transferTo e meta p _ _) as [[[ex|] m] w];
    by rewrite Forall_singleton.
Qed.

Lemma emits_bind {A B} (m : M A) (k : A -> M B) :
  emits ok m -> (forall x, emits ok (k x)) ->
  emits (World := World) ok (m ≫= k).
Proof.
  intros Hm Hk s. unfold mbind, M_bind.
  destruct (Hm s) as (evs1 & Htr1 & Hok1 & Hq1).
  destruct (m s) as [[ex|x] s1]; simpl in *; [by exists evs1|].
  destruct (Hk x s1) as (evs2 & Htr2 & Hok2 & Hq2).
  exists (evs1 ++ evs2). rewrite Htr2, Htr1, Hq2, Hq1, app_assoc.
  split; [done|]. split; [by apply Forall_app | done].
Qed.

Lemma emits_mret_bind {A B} (a : A) (k : A -> M B) :
  emits ok (k a) -> emits (World := World) ok (mret a ≫= k).
Proof. intros Hk s. apply Hk. Qed.

Lemma emits_try_catch {A} (body : M A) handler :
  emits ok body -> (forall ex, emits ok (handler ex)) ->
  emits (World := World) ok (try_catch body handler).
Proof.
  intros Hbody Hhandler s. unfold try_catch.
  destruct (Hbody s) as (evs1 & Htr1 & Hok1 & Hq1).
  destruct (body s) as [[ex|x] s1]; simpl in *; [|by exists evs1].
  destruct (Hhandler ex s1) as (evs2 & Htr2 & Hok2 & Hq2).
  exists (evs1 ++ evs2). rewrite Htr2, Htr1, Hq2, Hq1, app_assoc.
  split; [done|]. split; [by apply Forall_app | done].
Qed.

Lemma emits_with_lock {A} (body : M A) :
  ok EvLock -> ok EvUnlock -> emits ok body ->
  emits (World := World) ok (with_lock body).
Proof.
  intros Hlock Hunlock Hbody s. unfold with_lock.
  destruct (Hbody (emit EvLock (set_locked true s)))
    as (evs & Htr & Hok & Hq).
  destruct (body _) as [r s1]; simpl in *.
  exists ([EvLock] ++ evs ++ [EvUnlock]).
  rewrite Htr, Hq, <- !app_assoc. split; [done|]. split; [|done].
  apply Forall_app. split; [by apply Forall_singleton|].
  apply Forall_app. split; [done | by apply Forall_singleton].
Qed.

Lemma emits_transfer_all e l :
  (forall meta p, ok (EvTransfer e meta p)) ->
  emits (World := World) ok (transfer_all e l).
Proof.
  intros Hok. induction l as [|[meta p] rest IH]; simpl; [apply emits_mret|].
  apply emits_bind; [|intros _; exact IH].
  apply emits_try_catch; [by apply emits_transfer|].
  intros []; first [apply emits_mret | apply emits_throw].
Qed.

Lemma emits_ext {A} (m m' : M A) :
  (forall s, m s = m' s) -> emits ok m' -> emits (World := World) ok m.
Proof. intros Hext Hm s. rewrite Hext. apply Hm. Qed.

End WorkFacts.

Section TaskFacts.
Context `{D : Domain} {World : Type} `{C : !Collaborators World}.

Lemma emits_search_next_bundle e :
  let t := SearchNextBundleTask e in
  emits (World := World) (work_of t) (search_next_bundle t).
Proof.
  intros t. unfold search_next_bundle. simpl.
  apply emits_mret_bind.
  apply emits_bind; [apply emits_clear_list|]. intros _.
  apply emits_bind.
  - apply emits_with_lock; [done..|].
    apply emits_bind; [apply emits_get|]. intros entry.
    destruct (negb _); [apply emits_throw|].
    apply emits_bind; [apply emits_reads|]. intros plist.
    by apply emits_seek.
  - intros _.
    apply emits_bind; [apply emits_reads|]. intros l.
    apply emits_bind; [by apply emits_debug|]. intros _.
    by apply emits_transfer_all.
Qed.

Lemma emits_process_bundle bundle origin nexthop :
  let t := ProcessBundleTask bundle origin nexthop in
  emits (World := World) (work_of t) (process_bundle t).
Proof.
  intros t. unfold process_bundle. simpl.
  apply emits_mret_bind. simpl.
  apply emits_bind; [apply emits_reads|]. intros plist.
  apply emits_bind.
  - apply emits_with_lock; [done..|].
    apply emits_bind; [apply emits_get|]. intros entry.
    apply emits_bind; [apply emits_route|]. intros ret.
    destruct (negb _); [apply emits_throw | apply emits_mret].
  - intros ret. by apply emits_transfer.
Qed.

Lemma emits_search_catch e ex :
  let t := SearchNextBundleTask e in
  emits (World := World) (work_of t) (search_catch t ex).
Proof.
  intros t.
  destruct ex; simpl;
    first [by apply emits_debug | apply emits_mret | apply emits_throw].
Qed.

Lemma emits_process_catch bundle origin nexthop ex :
  let t := ProcessBundleTask bundle origin nexthop in
  emits (World := World) (work_of t) (process_catch t ex).
Proof.
  intros t.
  destruct ex; simpl;
    first [by apply emits_debug | apply emits_mret | apply emits_throw].
Qed.

Lemma emits_blocks t :
  emits (World := World) (work_of t)
    (try_catch (search_next_bundle t) (search_catch t) ;;
     try_catch (process_bundle t) (process_catch t)).
Proof.
  destruct t as [e|bundle origin nexthop].
  - apply emits_bind.
    + apply emits_try_catch; [apply emits_search_next_bundle|].
      intros ex. apply emits_search_catch.
    + intros _. eapply emits_ext; [apply process_block_other_task|].
      apply (emits_mret _ (A := unit)).
  - apply emits_bind.
    + eapply emits_ext; [apply search_block_other_task|].
      apply (emits_mret _ (A := unit)).
    + intros _.
      apply emits_try_catch; [apply emits_process_bundle|].
      intros ex. apply emits_process_catch.
Qed.

Lemma run_task_work t (s : Worker) :
  exists evs,
    trace (run_task t s).2 = trace s ++ EvDebug (processing t) :: evs /\
    Forall (work_of t) evs /\
    taskqueue (run_task t s).2 = taskqueue s.
Proof.
  assert (Hrun :
    run_task t s =
      (try_catch (search_next_bundle t) (search_catch t) ;;
       try_catch (process_bundle t) (process_catch t))
        (emit (EvDebug (processing t)) s)) by reflexivity.
  destruct (emits_blocks t (emit (EvDebug (processing t)) s))
    as (evs & Htr & Hok & Hq).
  exists evs. rewrite Hrun, Htr, Hq. simpl. by rewrite <- app_assoc.
Qed.

Lemma processed_app evs1 evs2 :
  processed (evs1 ++ evs2) = processed evs1 ++ processed evs2.
Proof.
  induction evs1 as [|ev evs1 IH]; [reflexivity|].
  destruct ev as [| | | |[]]; simpl; by rewrite ?IH.
Qed.

Lemma transfers_app evs1 evs2 :
  transfers (evs1 ++ evs2) = transfers evs1 ++ transfers evs2.
Proof.
  induction evs1 as [|ev evs1 IH]; [reflexivity|].
  destruct ev; simpl; by rewrite ?IH.
Qed.

Lemma work_of_processed t evs :
  Forall (work_of t) evs -> processed evs = [].
Proof.
  induction 1 as [|ev evs Hev _ IH]; [reflexivity|].
  destruct ev as [| | | |[]]; simpl in *; done.
Qed.

Lemma work_of_transfers t evs :
  Forall (work_of t) evs -> Forall (transfer_of t) (transfers evs).
Proof.
  induction 1 as [|ev evs Hev _ IH]; [constructor|].
  destruct ev; simpl in *; try done. by constructor.
Qed.

(** X5. Whatever happens while a task is processed belongs to that task:
    after the "processing" line, every transfer goes to the neighbour the
    task is about (and carries the bundle of a ProcessBundleTask), every
    debug line is about this task, no other task is taken up, and the task
    queue is not touched. *)
Theorem task_work_belongs_to_the_task t (s : Worker) :
  exists evs,
    trace (run_task t s).2 = trace s ++ EvDebug (processing t) :: evs /\
    Forall (work_of t) evs /\
    Forall (transfer_of t) (transfers evs) /\
    processed evs = [] /\
    taskqueue (run_task t s).2 = taskqueue s.
Proof.
  destruct (run_task_work t s) as (evs & Htr & Hok & Hq).
  exists evs. split; [done|]. split; [done|].
  split; [by apply work_of_transfers|].
  split; [by eapply work_of_processed | done].
Qed.

End TaskFacts.

(** ** The loop, the queue and the events *)

Section LoopFacts.
Context `{D : Domain} {World : Type} `{C : !Collaborators World}.

Lemma poll_task q t q' :
  poll q = PollTask t q' ->
  items q = t :: items q' /\ queue_aborted q' = queue_aborted q /\
  queue_aborted q = false.
Proof.
  unfold poll. destruct (queue_aborted q) eqn:Haborted; [done|].
  destruct (items q) as [|t0 rest]; [done|]. by intros [= <- <-].
Qed.

Lemma try_catch_returned {A} (body : M (World := World) A) handler s s1 a :
  body s = (inr a, s1) -> try_catch body handler s = (inr a, s1).
Proof. intros Hbody. unfold try_catch. by rewrite Hbody. Qed.

Lemma run_task_outcome t (s0 : Worker) r s1 :
  task_block t s0 = (r, s1) ->
  (try_catch (search_next_bundle t) (search_catch t) ;;
   try_catch (process_bundle t) (process_catch t)) s0 =
    match r with
    | inr _ => (inr tt, s1)
    | inl ex =>
        if caught t ex
        then (inr tt,
              if logged ex then emit (EvDebug (aborted t ex)) s1 else s1)
        else (inl ex, s1)
    end.
Proof.
  intros Hblock. unfold mbind, M_bind.
  destruct t as [e|bundle origin nexthop]; simpl in Hblock.
  - destruct r as [ex|[]].
    + rewrite (try_catch_thrown _ _ _ _ _ Hblock). by destruct ex.
    + by rewrite (try_catch_returned _ _ _ _ _ Hblock).
  - rewrite search_block_other_task.
    destruct r as [ex|[]].
    + rewrite (try_catch_thrown _ _ _ _ _ Hblock). by destruct ex.
    + by rewrite (try_catch_returned _ _ _ _ _ Hblock).
Qed.

Lemma run_iteration_outcome (s : Worker) t q r s1 :
  poll (taskqueue s) = PollTask t q ->
  task_block t (emit (EvDebug (processing t)) (set_taskqueue q s)) = (r, s1) ->
  run_iteration s =
    match r with
    | inr _ => (Yielded, s1)
    | inl ex =>
        if caught t ex
        then (Yielded,
              if logged ex then emit (EvDebug (aborted t ex)) s1 else s1)
        else (Returned, emit (EvDebug (terminated ex)) s1)
    end.
Proof.
  intros Hpoll Hblock. unfold run_iteration. rewrite Hpoll.
  assert (Hrun :
    run_task t (set_taskqueue q s) =
      (try_catch (search_next_bundle t) (search_catch t) ;;
       try_catch (process_bundle t) (process_catch t))
        (emit (EvDebug (processing t)) (set_taskqueue q s))) by reflexivity.
  rewrite Hrun, (run_task_outcome _ _ _ _ Hblock).
  destruct r as [ex|[]]; [|done]. by destruct (caught t ex).
Qed.

(** X6. How an iteration ends is decided by how the block written for the
    task ends. A normal end lets the loop go on. A failure named by one of
    the [catch] clauses of that block drops the task (with a debug line,
    except for NoRouteKnown and a cast failure) and lets the loop go on. Any
    other failure, such as AlreadyInTransit or NoRouteKnown out of the search
    block or NoBundleFound out of the process block, ends [run] with the
    line "terminated". *)
Theorem iteration_outcome_by_failure (s : Worker) t q r s1 :
  poll (taskqueue s) = PollTask t q ->
  task_block t (emit (EvDebug (processing t)) (set_taskqueue q s)) = (r, s1) ->
  run_iteration s =
    match r with
    | inr _ => (Yielded, s1)
    | inl ex =>
        if caught t ex
        then (Yielded,
              if logged ex then emit (EvDebug (aborted t ex)) s1 else s1)
        else (Returned, emit (EvDebug (terminated ex)) s1)
    end.
Proof. apply run_iteration_outcome. Qed.

Lemma process_bundle_rejected (s0 : Worker) b o n entry m p w1 :
  db_get n true (db s0) = (inr entry, m) ->
  shouldRouteTo b entry (getSupportedProtocols n (world s0)) (world s0) =
    ((false, p), w1) ->
  process_bundle (ProcessBundleTask b o n) s0 =
    (inl NoRouteKnownException,
     {| db := m; db_locked := false; world := w1;
        taskqueue := taskqueue s0; run_list := run_list s0;
        trace := trace s0 ++ [EvLock; EvUnlock] |}).
Proof.
  intros Hget Hroute.
  unfold process_bundle, with_lock, get, route, mbind, M_bind. simpl.
  rewrite Hget. simpl. rewrite Hroute. simpl. unfold_state.
  by rewrite <- !app_assoc.
Qed.

Lemma process_bundle_accepted (s0 : Worker) b o n entry m p w1 reply m2 w2 :
  db_get n true (db s0) = (inr entry, m) ->
  shouldRouteTo b entry (getSupportedProtocols n (world s0)) (world s0) =
    ((true, p), w1) ->
  transferTo n b p m w1 = (reply, m2, w2) ->
  process_bundle (ProcessBundleTask b o n) s0 =
    (match reply with Some ex => inl ex | None => inr tt end,
     {| db := m2; db_locked := false; world := w2;
        taskqueue := taskqueue s0; run_list := run_list s0;
        trace := trace s0 ++ [EvLock; EvUnlock; EvTransfer n b p] |}).
Proof.
  intros Hget Hroute Hreply.
  unfold process_bundle, with_lock, get, route, transfer, mbind, M_bind.
  simpl. rewrite Hget. simpl. rewrite Hroute. simpl. rewrite Hreply.
  destruct reply; simpl; unfold_state; by rewrite <- !app_assoc.
Qed.

(** X7. A ProcessBundleTask whose bundle the routing decision rejects is
    dropped without a transfer and without a debug line about the drop: the
    iteration locks, looks the neighbour up, decides, unlocks, and the loop
    goes on. *)
Theorem rejected_bundle_is_dropped_silently (s : Worker) b o n q entry m p w1 :
  let t := ProcessBundleTask b o n in
  poll (taskqueue s) = PollTask t q ->
  db_get n true (db s) = (inr entry, m) ->
  shouldRouteTo b entry (getSupportedProtocols n (world s)) (world s) =
    ((false, p), w1) ->
  run_iteration s =
    (Yielded,
     {| db := m; db_locked := false; world := w1; taskqueue := q;
        run_list := run_list s;
        trace := trace s ++ [EvDebug (processing t); EvLock; EvUnlock] |}).
Proof.
  intros t Hpoll Hget Hroute.
  rewrite (run_iteration_outcome s t q (inl NoRouteKnownException)
             {| db := m; db_locked := false; world := w1; taskqueue := q;
                run_list := run_list s;
                trace := trace s ++
                  [EvDebug (processing t); EvLock; EvUnlock] |} Hpoll).
  - reflexivity.
  - unfold t, task_block.
    rewrite (process_bundle_rejected
               (emit (EvDebug (processing (ProcessBundleTask b o n)))
                  (set_taskqueue q s)) b o n entry m p w1 Hget Hroute).
    unfold_state. by rewrite <- !app_assoc.
Qed.

(** X8. A ProcessBundleTask whose bundle is accepted makes exactly one
    transfer: of the bundle of the task, to its next hop, over the selected
    protocol, after the lock is released. A transfer that succeeds, or fails
    with a failure the process block names, lets the loop go on; any other
    failure of the transfer ends [run]. *)
Theorem accepted_bundle_is_transferred_once
    (s : Worker) b o n q entry m p w1 reply m2 w2 :
  let t := ProcessBundleTask b o n in
  poll (taskqueue s) = PollTask t q ->
  db_get n true (db s) = (inr entry, m) ->
  shouldRouteTo b entry (getSupportedProtocols n (world s)) (world s) =
    ((true, p), w1) ->
  transferTo n b p m w1 = (reply, m2, w2) ->
  run_iteration s =
    (match reply with
     | Some ex => if caught t ex then Yielded else Returned
     | None => Yielded
     end,
     {| db := m2; db_locked := false; world := w2; taskqueue := q;
        run_list := run_list s;
        trace := trace s ++
          [EvDebug (processing t); EvLock; EvUnlock; EvTransfer n b p] ++
          match reply with
          | None => []
          | Some ex =>
              if caught t ex
              then (if logged ex then [EvDebug (aborted t ex)] else [])
              else [EvDebug (terminated ex)]
          end |}).
Proof.
  intros t Hpoll Hget Hroute Hreply.
  rewrite (run_iteration_outcome s t q
             (match reply with Some ex => inl ex | None => inr tt end)
             {| db := m2; db_locked := false; world := w2; taskqueue := q;
                run_list := run_list s;
                trace := trace s ++
                  [EvDebug (processing t); EvLock; EvUnlock;
                   EvTransfer n b p] |} Hpoll).
  - destruct reply as [ex|]; [|by rewrite app_nil_r].
    destruct (caught t ex); [|unfold_state; by rewrite <- !app_assoc].
    destruct (logged ex); [|by rewrite app_nil_r].
    unfold_state. by rewrite <- !app_assoc.
  - unfold t, task_block.
    rewrite (process_bundle_accepted
               (emit (EvDebug (processing (ProcessBundleTask b o n)))
                  (set_taskqueue q s)) b o n entry m p w1 reply m2 w2
               Hget Hroute Hreply).
    unfold_state. by rewrite <- !app_assoc.
Qed.

End LoopFacts.

Section QueueFacts.
Context `{D : Domain} {World : Type} `{C : !Collaborators World}.

Lemma run_iteration_fifo (s : Worker) :
  exists evs,
    trace (run_iteration s).2 = trace s ++ evs /\
    items (taskqueue s) =
      processed evs ++ items (taskqueue (run_iteration s).2) /\
    Forall (transfer_of_some (items (taskqueue s))) (transfers evs).
Proof.
  unfold run_iteration.
  destruct (poll (taskqueue s)) as [| |t q] eqn:Hpoll.
  - exists []. rewrite app_nil_r. by split; [|split; [|constructor]].
  - exists [EvDebug (terminated QueueUnavailableException)].
    by split; [|split; [|constructor]].
  - apply poll_task in Hpoll as (Hitems & _ & _).
    destruct (run_task_work t (set_taskqueue q s)) as (evs & Htr & Hok & Hq).
    assert (Htransfers :
      Forall (transfer_of_some (t :: items q)) (transfers evs)).
    { eapply Forall_impl; [by apply work_of_transfers|].
      intros tr Htr'. exists t. split; [by left | done]. }
    destruct (run_task t (set_taskqueue q s)) as [[ex|[]] s1]; simpl in *.
    + exists (EvDebug (processing t) :: evs ++ [EvDebug (terminated ex)]).
      rewrite Htr, Hq, Hitems, <- app_assoc. simpl.
      rewrite processed_app, transfers_app, (work_of_processed t evs Hok).
      simpl. rewrite app_nil_r. done.
    + exists (EvDebug (processing t) :: evs).
      rewrite Htr, Hq, Hitems. simpl.
      by rewrite (work_of_processed t evs Hok).
Qed.

Lemma run_fifo fuel :
  forall s : Worker,
    exists evs,
      trace (run fuel s).2 = trace s ++ evs /\
      items (taskqueue s) = processed evs ++ items (taskqueue (run fuel s).2) /\
      Forall (transfer_of_some (items (taskqueue s))) (transfers evs).
Proof.
  induction fuel as [|fuel IH]; intros s; simpl.
  - exists []. rewrite app_nil_r. by split; [|split; [|constructor]].
  - destruct (run_iteration_fifo s) as (evs1 & Htr1 & Hq1 & Htf1).
    destruct (run_iteration s) as [[] s1]; simpl in *;
      try (by exists evs1).
    destruct (IH s1) as (evs2 & Htr2 & Hq2 & Htf2).
    exists (evs1 ++ evs2).
    split; [by rewrite Htr2, Htr1, app_assoc|].
    split; [by rewrite processed_app, <- app_assoc, <- Hq2|].
    rewrite transfers_app.
    apply Forall_app. split; [done|].
    eapply Forall_impl; [exact Htf2|].
    intros tr (t & Hin & Htr). exists t. split; [|done].
    rewrite Hq1. apply elem_of_app. by right.
Qed.

(** X9. The worker takes the queued tasks up in the order of the queue, each
    at most once: the tasks named by the "processing" lines of a run,
    followed by the tasks still queued after it, are the tasks queued before
    it. And it transfers nothing on its own account: every transfer of the
    run belongs to one of these tasks. *)
Theorem tasks_are_taken_in_queue_order fuel (s : Worker) :
  exists evs,
    trace (run fuel s).2 = trace s ++ evs /\
    items (taskqueue s) = processed evs ++ items (taskqueue (run fuel s).2) /\
    Forall (fun tr => exists t, t ∈ items (taskqueue s) /\ transfer_of t tr)
      (transfers evs).
Proof. apply run_fifo. Qed.

(** X10. A bundle queued towards [peer] does not go back to [peer]: when the
    queue holds nothing else, every transfer the worker then makes carries
    this bundle to a known neighbour whose EID is not [peer], and the tasks
    it takes up are an initial part of the tasks the event has queued. *)
Theorem queued_bundle_is_not_sent_back peer meta fuel (s : Worker) :
  items (taskqueue s) = [] ->
  exists evs,
    trace (run fuel (eventBundleQueued peer meta s)).2 = trace s ++ evs /\
    processed evs `prefix_of` offers peer meta (getNeighbors (world s)) /\
    Forall (fun tr =>
              tr.1.1 <> peer /\ tr.1.2 = meta /\
              exists n, n ∈ getNeighbors (world s) /\ tr.1.1 = getEID n)
      (transfers evs).
Proof.
  intros Hidle.
  destruct (run_fifo fuel (eventBundleQueued peer meta s))
    as (evs & Htr & Hq & Htf).
  assert (Hitems :
    items (taskqueue (eventBundleQueued peer meta s)) =
      offers peer meta (getNeighbors (world s))).
  { unfold eventBundleQueued. simpl.
    by rewrite queue_for_neighbors_offers, Hidle. }
  rewrite Hitems in Hq, Htf.
  exists evs. split; [exact Htr|]. split.
  - rewrite Hq. by apply prefix_app_r.
  - eapply Forall_impl; [exact Htf|].
    intros [[e b] p] (t & Hin & Htarget & Hbundle). simpl in *.
    unfold offers in Hin.
    apply list_elem_of_fmap in Hin as (n & -> & Hn).
    apply list_elem_of_filter in Hn as [Hne Hn]. simpl in *. subst.
    split; [done|]. split; [done|]. by exists n.
Qed.

(** X11. The result list of an earlier search does not reach the next one:
    an iteration for a SearchNextBundleTask does the same, and ends in the
    same state, whatever the list held before. *)
Theorem search_starts_from_an_empty_list (s : Worker) e q stale :
  poll (taskqueue s) = PollTask (SearchNextBundleTask e) q ->
  run_iteration (set_run_list stale s) = run_iteration s.
Proof.
  intros Hpoll. unfold run_iteration.
  change (taskqueue (set_run_list stale s)) with (taskqueue s).
  rewrite Hpoll. reflexivity.
Qed.

(** X13. After [__cancellation] the loop ends at its next poll: [run]
    returns with the line "terminated", and the tasks still queued are
    neither taken up nor removed. *)
Theorem cancellation_ends_the_loop fuel (s : Worker) :
  run (S fuel) (__cancellation s) =
    (Returned,
     emit (EvDebug (terminated QueueUnavailableException)) (__cancellation s))
  /\
  items (taskqueue (run (S fuel) (__cancellation s)).2) = items (taskqueue s) /\
  trace (run (S fuel) (__cancellation s)).2 =
    trace s ++ [EvDebug (terminated QueueUnavailableException)].
Proof. by split; [|split]. Qed.

(** X14. A "data changed" event for a neighbour reaches a waiting worker as
    a search for that neighbour: on an empty queue that is not aborted, the
    next iteration takes up exactly [SearchNextBundleTask peer], transfers
    to no other neighbour and leaves the queue empty again. *)
Theorem data_changed_starts_a_search peer (s : Worker) :
  items (taskqueue s) = [] -> queue_aborted (taskqueue s) = false ->
  let r := run_iteration (eventDataChanged peer s) in
  r.1 <> Polling /\
  items (taskqueue r.2) = [] /\
  exists evs,
    trace r.2 = trace s ++ EvDebug (processing (SearchNextBundleTask peer)) :: evs /\
    processed evs = [] /\
    Forall (fun tr => tr.1.1 = peer) (transfers evs).
Proof.
  intros Hidle Hlive r.
  set (t := SearchNextBundleTask peer).
  set (q := {| items := []; queue_aborted := false |}).
  assert (Hpoll : poll (taskqueue (eventDataChanged peer s)) = PollTask t q).
  { unfold eventDataChanged, poll, push. simpl. by rewrite Hidle, Hlive. }
  destruct (run_task_work t (set_taskqueue q (eventDataChanged peer s)))
    as (evs & Htr & Hok & Hq).
  assert (Htransfers : Forall (fun tr => tr.1.1 = peer) (transfers evs)).
  { eapply Forall_impl; [by apply work_of_transfers|]. by intros tr [? _]. }
  unfold r, run_iteration. rewrite Hpoll.
  destruct (run_task t _) as [[ex|[]] s1]; simpl in *.
  - split; [done|]. split; [by rewrite Hq|].
    exists (evs ++ [EvDebug (terminated ex)]).
    rewrite Htr, <- app_assoc, processed_app, transfers_app. simpl.
    rewrite !app_nil_r, (work_of_processed t evs Hok). done.
  - split; [done|]. split; [by rewrite Hq|].
    exists evs. by rewrite (work_of_processed t evs Hok).
Qed.

End QueueFacts.

Section LookupFacts.
Context `{D : Domain} {World : Type} `{C : !Collaborators World}.





End LookupFacts.

Section InvariantFacts.
Context `{D : Domain} {World : Type} `{C : !Collaborators World}.

(** X12. The worker writes to the neighbour database only through its
    collaborators: a property of the database that the lookup with [true],
    the storage query and [transferTo] keep is kept by the processing of
    any task and by any number of iterations of the loop. *)
Theorem worker_keeps_what_its_collaborators_keep
    (I : gmap EID NeighborEntry -> Prop) (s : Worker) :
  (forall e m, I m -> I (db_get e true m).2) ->
  (forall f l m w, I m -> I (seeker_get f l m w).1.2) ->
  (forall e meta p m w, I m -> I (transferTo e meta p m w).1.2) ->
  I (db s) ->
  (forall t, I (db (run_task t s).2)) /\
  (forall fuel, I (db (run fuel s).2)).
Proof.
  intros Hget Hseek Htransfer Hs. split.
  - intros t. by apply db_keeps_run_task.
  - intros fuel. by apply db_keeps_run.
Qed.

End InvariantFacts.

Section RenderingFacts.
Context `{D : Domain} `{R : !Rendering}.

(** X15. The rendering of a task tells its class: two tasks with the same
    [toString] are both searches, for EIDs with the same string, or both
    process tasks, for bundles with the same string. *)
Theorem toString_tells_the_task_class (t1 t2 : Task) :
  toString t1 = toString t2 ->
  match t1, t2 with
  | SearchNextBundleTask e1, SearchNextBundleTask e2 =>
      getString e1 = getString e2
  | ProcessBundleTask b1 _ _, ProcessBundleTask b2 _ _ =>
      bundle_toString b1 = bundle_toString b2
  | _, _ => False
  end.
Proof.
  destruct t1, t2; simpl; intros Heq; by simplify_eq.
Qed.

Lemma to_int_in_range z :
  (INT_MIN <= z <= INT_MAX)%Z -> to_int z = z.
Proof.
  unfold INT_MIN, INT_MAX, to_int. intros Hz.
  rewrite Z.mod_small by lia. lia.
Qed.

Lemma length_append (a b : string) :
  String.length (a +:+ b) = String.length a + String.length b.
Proof.
  induction a as [|c a IH]; simpl; [done|]. by rewrite <- IH.
Qed.

(** X16. The SQL side of the selector is consistent where the arithmetic of
    [bind] stays inside the [int]: for an index [offset] below INT_MAX and a
    node string shorter than INT_MAX, [bind] makes one call of
    [sqlite3_bind_text], for the parameter [offset], with the string of the
    neighbour's node followed by "%" and the length of that text, and it
    returns [offset + 1]; so it takes as many indexes as the condition of
    [getWhere] has placeholders, which is one. What the call binds is left
    to sqlite, whose result code [bind] drops. *)
Theorem bind_fills_the_placeholder_of_getWhere entry st offset :
  (INT_MIN <= offset < INT_MAX)%Z ->
  (Z.of_nat (String.length (getString (getNode (eid entry)))) < INT_MAX)%Z ->
  let d := getString (getNode (eid entry)) +:+ "%" in
  let r := bind entry st offset in
  Z.of_nat (occurrences placeholder getWhere) = (r.2 - offset)%Z /\
  r.1 = (sqlite3_bind_text st offset d (Z.of_nat (String.length d))).2 /\
  r.2 = (offset + 1)%Z.
Proof.
  intros Hoffset Hlength d r.
  assert (Hnext : r.2 = (offset + 1)%Z).
  { unfold r, bind. simpl. apply to_int_in_range.
    unfold INT_MIN, INT_MAX in *. lia. }
  split; [|split; [|exact Hnext]].
  - rewrite Hnext. vm_compute occurrences. lia.
  - unfold r, bind. simpl. fold d. rewrite to_int_in_range; [done|].
    unfold d. rewrite length_append. simpl.
    unfold INT_MIN, INT_MAX in *. lia.
Qed.

End RenderingFacts.

(** ** The properties on the small network *)

Import Scenario.

(** Protocols [LOWPAN; TCPIP; UDPIP] with a policy that rejects the first and
    accepts the other two: TCPIP is chosen, and UDPIP is never asked for. *)
Example first_accept_of_three :
  let w := network [CONN_TCPIP; CONN_UDPIP] [] [] in
  let r := shouldRouteTo b1 (entry_Y ∅ 2)
             [CONN_LOWPAN; CONN_TCPIP; CONN_UDPIP] w in
  r.1 = (true, CONN_TCPIP) /\
  ctx_protocol <$> asked r.2 = [Some CONN_LOWPAN; Some CONN_TCPIP].
Proof. split; vm_compute; reflexivity. Qed.

Lemma shouldRouteTo_first_accept_wins_witness :
  let w := network [CONN_TCPIP; CONN_UDPIP] [] [] in
  let plist := [CONN_LOWPAN; CONN_TCPIP; CONN_UDPIP] in
  passes_checks b1 (entry_Y ∅ 2) /\
  ((exists r w',
      first_accept_wins
        (fun p => evaluate ROUTING (routing_context (entry_Y ∅ 2) b1 p))
        plist w r w' /\
      shouldRouteTo b1 (entry_Y ∅ 2) plist w = (selection r, w')) /\
   (plist = [] ->
    shouldRouteTo b1 (entry_Y ∅ 2) plist w = (do_not_forward, w))).
Proof.
  intros w plist.
  assert (Hpass : passes_checks b1 (entry_Y ∅ 2))
    by (repeat split; vm_compute; congruence).
  split; [exact Hpass|].
  exact (shouldRouteTo_first_accept_wins b1 (entry_Y ∅ 2) plist w Hpass).
Defined.

Lemma shouldRouteTo_only_singleton_for_neighbor_witness :
  let w := network [CONN_TCPIP] [] [] in
  meta_get b3 DESTINATION_IS_SINGLETON = false /\
  shouldRouteTo b3 (entry_Y ∅ 2) [CONN_TCPIP] w = (do_not_forward, w).
Proof.
  intros w. split; [reflexivity|].
  apply (shouldRouteTo_only_singleton_for_neighbor b3 (entry_Y ∅ 2)
           [CONN_TCPIP] w).
  left. reflexivity.
Defined.

(** The other two cases of C2: a bundle for this node, and a bundle for the
    node [Y] offered to the neighbour [Z]. *)
Example local_and_foreign_bundles_rejected :
  let w := network [CONN_TCPIP] [] [] in
  shouldRouteTo b4 (entry_Y ∅ 2) [CONN_TCPIP] w = (do_not_forward, w) /\
  shouldRouteTo b1 {| eid := Z; known := ∅; free_transfer_slots := 2;
                      in_flight := 0 |} [CONN_TCPIP] w = (do_not_forward, w).
Proof.
  intros w. split; vm_compute; reflexivity.
Qed.

Lemma shouldRouteTo_hop_limit_exhausted_witness :
  let w := network [CONN_TCPIP] [] [] in
  hopcount b2 = 0%N /\
  (shouldRouteTo b2 (entry_Y ∅ 2) [CONN_TCPIP] w =
     ((false, CONN_UNDEFINED), w) /\
   forall calls,
     shouldRouteTo (P := recording policy) b2 (entry_Y ∅ 2) [CONN_TCPIP]
       (w, calls) = ((false, CONN_UNDEFINED), (w, calls))).
Proof.
  intros w. split; [reflexivity|].
  apply (shouldRouteTo_hop_limit_exhausted policy b2 (entry_Y ∅ 2)
           [CONN_TCPIP] w).
  reflexivity.
Defined.

Lemma shouldRouteTo_known_bundle_rejected_witness :
  let w := network [CONN_TCPIP] [] [] in
  let n := entry_Y {[1]} 2 in
  has n b1 = true /\
  (shouldRouteTo b1 n [CONN_TCPIP] w = (do_not_forward, w) /\
   (forall calls,
      shouldRouteTo (P := recording policy) b1 n [CONN_TCPIP] (w, calls) =
        (do_not_forward, (w, calls))) /\
   (forall k,
      shouldRouteTo_times k b1 n [CONN_TCPIP] w =
        (replicate k do_not_forward, w))).
Proof.
  intros w n.
  assert (Hknown : has n b1 = true) by (vm_compute; reflexivity).
  split; [exact Hknown|].
  exact (shouldRouteTo_known_bundle_rejected policy b1 n [CONN_TCPIP] w
           Hknown).
Defined.

(** The same bundle is forwarded over TCPIP to a neighbour that does not hold
    it: with [b1] known, it is the known-bundle check that rejects. *)
Example unknown_bundle_is_forwarded :
  (shouldRouteTo b1 (entry_Y ∅ 2) [CONN_TCPIP] (network [CONN_TCPIP] [] [])).1
    = (true, CONN_TCPIP).
Proof. vm_compute. reflexivity. Qed.

(** A search for [Y] with no free slot: the task is given up under the lock,
    nothing is asked of the storage and nothing is transferred. *)
Lemma search_without_free_slots_is_dropped_witness :
  let t := SearchNextBundleTask Y in
  let w := network [CONN_TCPIP] [b1; b5] [] in
  let entries : gmap EID NeighborEntry := {[ Y := entry_Y ∅ 0 ]} in
  let s := worker entries [t] w in
  let q := {| items := []; queue_aborted := false |} in
  poll (taskqueue s) = PollTask t q /\
  db_get Y true (db s) = (inr (entry_Y ∅ 0), entries) /\
  isTransferThresholdReached (entry_Y ∅ 0) = false /\
  run_iteration s =
    (Yielded,
     {| db := entries; db_locked := false; world := w; taskqueue := q;
        run_list := [];
        trace := [EvDebug (processing t); EvLock; EvUnlock;
                  EvDebug (aborted t NoMoreTransfersAvailable)] |}).
Proof.
  intros t w entries s q.
  assert (Hpoll : poll (taskqueue s) = PollTask t q) by reflexivity.
  assert (Hget : db_get Y true (db s) = (inr (entry_Y ∅ 0), entries))
    by (vm_compute; reflexivity).
  assert (Hslots : isTransferThresholdReached (entry_Y ∅ 0) = false)
    by reflexivity.
  split; [exact Hpoll|]. split; [exact Hget|]. split; [exact Hslots|].
  exact (search_without_free_slots_is_dropped s Y q (entry_Y ∅ 0) entries
           Hpoll Hget Hslots).
Defined.

(** A search for [Y] that finds [b1] and [b5], the first already in
    transit: both are attempted, and [b5] is sent and takes a slot. *)
Lemma already_in_transit_skips_one_candidate_witness :
  let t := SearchNextBundleTask Y in
  let w := network [CONN_TCPIP] [b1; b2; b3; b4; b5]
             [(1, AlreadyInTransitException)] in
  let entries : gmap EID NeighborEntry := {[ Y := entry_Y ∅ 2 ]} in
  let s := worker entries [t] w in
  let q := {| items := []; queue_aborted := false |} in
  let l := [(b1, CONN_TCPIP); (b5, CONN_TCPIP)] in
  let filter :=
    BundleFilter_new (entry_Y ∅ 2) (getSupportedProtocols Y (world s)) in
  let w1 := (seeker_get filter [] entries (world s)).2 in
  poll (taskqueue s) = PollTask t q /\
  db_get Y true (db s) = (inr (entry_Y ∅ 2), entries) /\
  isTransferThresholdReached (entry_Y ∅ 2) = true /\
  seeker_get filter [] entries (world s) = ((None, l), entries, w1) /\
  transfer_replies Y l entries w1 = [Some AlreadyInTransitException; None] /\
  run_iteration s =
    (Yielded,
     {| db := (after_transfers Y l entries w1).1; db_locked := false;
        world := (after_transfers Y l entries w1).2; taskqueue := q;
        run_list := l;
        trace := trace s ++
          [EvDebug (processing t); EvLock; EvSeek; EvUnlock;
           EvDebug (got_items (length l) Y)] ++ transfer_events Y l |}) /\
  transfer_events Y l =
    [EvTransfer Y b1 CONN_TCPIP; EvTransfer Y b5 CONN_TCPIP] /\
  sent (after_transfers Y l entries w1).2 = [(Y, 5, CONN_TCPIP)].
Proof.
  intros t w entries s q l filter w1.
  assert (Hpoll : poll (taskqueue s) = PollTask t q) by reflexivity.
  assert (Hget : db_get Y true (db s) = (inr (entry_Y ∅ 2), entries))
    by (vm_compute; reflexivity).
  assert (Hslots : isTransferThresholdReached (entry_Y ∅ 2) = true)
    by reflexivity.
  assert (Hseek :
    seeker_get filter [] entries (world s) = ((None, l), entries, w1))
    by (vm_compute; reflexivity).
  assert (Hreplies :
    transfer_replies Y l entries w1 = [Some AlreadyInTransitException; None])
    by (vm_compute; reflexivity).
  assert (Htolerated : Forall tolerated (transfer_replies Y l entries w1)).
  { rewrite Hreplies. constructor; [right; reflexivity|].
    constructor; [left; reflexivity|]. constructor. }
  split; [exact Hpoll|]. split; [exact Hget|]. split; [exact Hslots|].
  split; [exact Hseek|]. split; [exact Hreplies|].
  split; [|split; vm_compute; reflexivity].
  exact (already_in_transit_skips_one_candidate s Y q (entry_Y ∅ 2) entries l
           entries w1 Hpoll Hget Hslots Hseek Htolerated).
Defined.

(** The same by running the loop: two transfers after the unlock, and the
    entry of [Y] left with one free slot and one bundle in flight. *)
Example search_continues_after_already_in_transit :
  let t := SearchNextBundleTask Y in
  let w := network [CONN_TCPIP] [b1; b2; b3; b4; b5]
             [(1, AlreadyInTransitException)] in
  let r := run_iteration (worker {[ Y := entry_Y ∅ 2 ]} [t] w) in
  r.1 = Yielded /\
  trace r.2 =
    [EvDebug (processing t); EvLock; EvSeek; EvUnlock;
     EvDebug (got_items 2 Y);
     EvTransfer Y b1 CONN_TCPIP; EvTransfer Y b5 CONN_TCPIP] /\
  sent (world r.2) = [(Y, 5, CONN_TCPIP)] /\
  db r.2 !! Y =
    Some {| eid := Y; known := ∅; free_transfer_slots := 1; in_flight := 1 |}.
Proof. split; [|split; [|split]]; vm_compute; reflexivity. Qed.


(** The same for a search task, by running the loop: nothing is asked of the
    storage, although it holds a bundle for [Y]. *)
Example search_for_unknown_neighbor_is_dropped :
  let t := SearchNextBundleTask Y in
  let w := network [CONN_TCPIP] [b1] [] in
  let r := run_iteration (worker {[ X := entry_for X ]} [t] w) in
  r.1 = Yielded /\
  trace r.2 =
    [EvDebug (processing t); EvLock; EvUnlock;
     EvDebug (aborted t EntryNotFoundException)] /\
  world r.2 = w.
Proof. split; [|split]; vm_compute; reflexivity. Qed.

(** A transfer that fails with EntryNotFound, for a neighbour that the
    database knows: the task is dropped in the same way. *)
Example task_dropped_when_the_transfer_finds_no_entry :
  let t1 := ProcessBundleTask b1 X Y in
  let t2 := SearchNextBundleTask Y in
  let w := network [CONN_TCPIP] [b1] [(1, EntryNotFoundException)] in
  trace (run_iteration (worker known_neighbors [t1] w)).2 =
    [EvDebug (processing t1); EvLock; EvUnlock; EvTransfer Y b1 CONN_TCPIP;
     EvDebug (aborted t1 EntryNotFoundException)] /\
  trace (run_iteration (worker known_neighbors [t2] w)).2 =
    [EvDebug (processing t2); EvLock; EvSeek; EvUnlock;
     EvDebug (got_items 1 Y); EvTransfer Y b1 CONN_TCPIP;
     EvDebug (aborted t2 EntryNotFoundException)].
Proof. split; vm_compute; reflexivity. Qed.



(** Transfers to [Y] take its slots, and no entry comes or goes: the
    database keeps its set of neighbours over three searches. *)
Lemma worker_keeps_what_its_collaborators_keep_witness :
  let t := SearchNextBundleTask Y in
  let s := worker known_neighbors [t; t; t] (network [CONN_TCPIP] [b1] []) in
  let I := fun m : gmap EID NeighborEntry => dom m = dom known_neighbors in
  (forall e m, I m -> I (db_get e true m).2) /\
  (forall f l m w, I m -> I (seeker_get f l m w).1.2) /\
  (forall e meta p m w, I m -> I (transferTo e meta p m w).1.2) /\
  I (db s) /\
  (forall t, I (db (run_task t s).2)) /\
  (forall fuel, I (db (run fuel s).2)).
Proof.
  intros t s I.
  assert (Hget : forall e (m : gmap EID NeighborEntry),
    I m -> I (db_get e true m).2).
  { intros e m Hm. simpl. unfold lookup_or_fail. by destruct (m !! e). }
  assert (Hseek : forall f l (m : gmap EID NeighborEntry) w,
    I m -> I (seeker_get f l m w).1.2).
  { intros f l m w Hm. simpl. unfold query.
    by destruct (select f (storage w) 0%N l w) as [[? ?] ?]. }
  assert (Htransfer : forall e meta p (m : gmap EID NeighborEntry) w,
    I m -> I (transferTo e meta p m w).1.2).
  { intros e meta p m w Hm. simpl. unfold send.
    destruct (refusal (bundle_id meta) (refused w)); simpl; [done|].
    unfold I in *. by rewrite dom_alter_L. }
  assert (Hs : I (db s)) by reflexivity.
  split; [exact Hget|]. split; [exact Hseek|]. split; [exact Htransfer|].
  split; [exact Hs|].
  exact (worker_keeps_what_its_collaborators_keep I s Hget Hseek Htransfer Hs).
Defined.

(** What the three searches do to the entry of [Y]: two transfers take its
    two slots, and the third search is given up for want of a slot. *)
Example searches_use_up_the_slots :
  let t := SearchNextBundleTask Y in
  let r := run 3 (worker known_neighbors [t; t; t]
                    (network [CONN_TCPIP] [b1] [])) in
  free_transfer_slots <$> db r.2 !! Y = Some 0%N /\
  transfers (trace r.2) = [(Y, b1, CONN_TCPIP); (Y, b1, CONN_TCPIP)] /\
  last (trace r.2) = Some (EvDebug (aborted t NoMoreTransfersAvailable)).
Proof. split; [|split]; vm_compute; reflexivity. Qed.

(** Neighbours [X], [Y], [Z] and a bundle queued towards [X]: two tasks, for
    [Y] and for [Z]. *)
Lemma bundle_queued_offers_other_neighbors_witness :
  let s := worker ∅ [] (network [CONN_TCPIP] [] []) in
  let pushed := offers X b1 (getNeighbors (world s)) in
  NoDup (getEID <$> getNeighbors (world s)) /\
  (items (taskqueue (eventBundleQueued X b1 s)) =
     items (taskqueue s) ++ pushed /\
   (forall n, n ∈ getNeighbors (world s) -> getEID n <> X ->
      tasks_for (getEID n) pushed = 1 /\
      ProcessBundleTask b1 X (getEID n) ∈ pushed) /\
   tasks_for X pushed = 0 /\
   (forall t, t ∈ pushed ->
      exists n, n ∈ getNeighbors (world s) /\ getEID n <> X /\
                t = ProcessBundleTask b1 X (getEID n))).
Proof.
  intros s pushed.
  assert (Hnodup : NoDup (getEID <$> getNeighbors (world s))).
  { apply (bool_decide_unpack _). vm_compute. exact I. }
  split; [exact Hnodup|].
  exact (bundle_queued_offers_other_neighbors X b1 s Hnodup).
Defined.

Example bundle_queued_with_three_neighbors :
  items (taskqueue (eventBundleQueued X b1
                      (worker ∅ [] (network [CONN_TCPIP] [] [])))) =
    [ProcessBundleTask b1 X Y; ProcessBundleTask b1 X Z].
Proof. vm_compute. reflexivity. Qed.

(** A transfer between lock and unlock is what [transfers_unlocked] rules
    out. *)
Example transfer_under_lock_is_refused :
  transfers_unlocked false [EvLock; EvTransfer Y b1 CONN_TCPIP; EvUnlock]
    = false /\
  transfers_unlocked false [EvLock; EvUnlock; EvTransfer Y b1 CONN_TCPIP]
    = true.
Proof. split; reflexivity. Qed.

(** Neighbour [Y] with two free slots and nothing known, the storage holding
    [b1] (for [Y], five hops left), [b2] (for [Y], no hop left) and [b3]
    (not for a single node), a policy that accepts TCPIP: only [b1] is
    selected and transferred, over TCPIP. *)
Example search_selects_only_the_routable_bundle :
  let t := SearchNextBundleTask Y in
  let entries : gmap EID NeighborEntry := {[ Y := entry_Y ∅ 2 ]} in
  let r := run_iteration
             (worker entries [t] (network [CONN_TCPIP] [b1; b2; b3] [])) in
  r.1 = Yielded /\
  run_list r.2 = [(b1, CONN_TCPIP)] /\
  sent (world r.2) = [(Y, 1, CONN_TCPIP)].
Proof. repeat split; vm_compute; reflexivity. Qed.

(** Two entries for [Y] that differ in their free slots get the same
    answer. *)
Lemma shouldRouteTo_ignores_transfer_slots_witness :
  let w := network [CONN_TCPIP] [] [] in
  eid (entry_Y ∅ 0) = eid (entry_Y ∅ 2) /\
  known (entry_Y ∅ 0) = known (entry_Y ∅ 2) /\
  shouldRouteTo b1 (entry_Y ∅ 0) [CONN_TCPIP] w =
    shouldRouteTo b1 (entry_Y ∅ 2) [CONN_TCPIP] w.
Proof.
  intros w. split; [reflexivity|]. split; [reflexivity|].
  exact (shouldRouteTo_ignores_transfer_slots policy b1 (entry_Y ∅ 0)
           (entry_Y ∅ 2) [CONN_TCPIP] w eq_refl eq_refl).
Defined.

(** A transfer that fails with NoBundleFound, which the process block does
    not name: [run] returns. *)
Lemma iteration_outcome_by_failure_witness :
  let t := ProcessBundleTask b1 X Y in
  let w := network [CONN_TCPIP] [] [(1, NoBundleFoundException)] in
  let s := worker known_neighbors [t] w in
  let q := {| items := []; queue_aborted := false |} in
  let s0 := emit (EvDebug (processing t)) (set_taskqueue q s) in
  poll (taskqueue s) = PollTask t q /\
  task_block t s0 = (inl NoBundleFoundException, (task_block t s0).2) /\
  run_iteration s =
    (Returned,
     emit (EvDebug (terminated NoBundleFoundException)) (task_block t s0).2).
Proof.
  intros t w s q s0.
  assert (Hpoll : poll (taskqueue s) = PollTask t q) by reflexivity.
  assert (Hblock :
    task_block t s0 = (inl NoBundleFoundException, (task_block t s0).2))
    by (vm_compute; reflexivity).
  split; [exact Hpoll|]. split; [exact Hblock|].
  exact (iteration_outcome_by_failure s t q (inl NoBundleFoundException)
           (task_block t s0).2 Hpoll Hblock).
Defined.

(** The group bundle [b3] offered to [Y]: dropped without a word. *)
Lemma rejected_bundle_is_dropped_silently_witness :
  let t := ProcessBundleTask b3 X Y in
  let w := network [CONN_TCPIP] [] [] in
  let entries : gmap EID NeighborEntry := {[ Y := entry_Y ∅ 2 ]} in
  let s := worker entries [t] w in
  let q := {| items := []; queue_aborted := false |} in
  poll (taskqueue s) = PollTask t q /\
  db_get Y true (db s) = (inr (entry_Y ∅ 2), entries) /\
  shouldRouteTo b3 (entry_Y ∅ 2) (getSupportedProtocols Y (world s)) (world s)
    = ((false, CONN_UNDEF), w) /\
  run_iteration s =
    (Yielded,
     {| db := entries; db_locked := false; world := w; taskqueue := q;
        run_list := [];
        trace := [EvDebug (processing t); EvLock; EvUnlock] |}).
Proof.
  intros t w entries s q.
  assert (Hpoll : poll (taskqueue s) = PollTask t q) by reflexivity.
  assert (Hget : db_get Y true (db s) = (inr (entry_Y ∅ 2), entries))
    by (vm_compute; reflexivity).
  assert (Hroute :
    shouldRouteTo b3 (entry_Y ∅ 2) (getSupportedProtocols Y (world s))
      (world s) = ((false, CONN_UNDEF), w)) by reflexivity.
  split; [exact Hpoll|]. split; [exact Hget|]. split; [exact Hroute|].
  exact (rejected_bundle_is_dropped_silently s b3 X Y q (entry_Y ∅ 2) entries
           CONN_UNDEF w Hpoll Hget Hroute).
Defined.

(** [b1] offered to [Y] while it is already in transit: one transfer, a
    debug line, and the loop goes on. *)
Lemma accepted_bundle_is_transferred_once_witness :
  let t := ProcessBundleTask b1 X Y in
  let w := network [CONN_TCPIP] [] [(1, AlreadyInTransitException)] in
  let entries : gmap EID NeighborEntry := {[ Y := entry_Y ∅ 2 ]} in
  let s := worker entries [t] w in
  let q := {| items := []; queue_aborted := false |} in
  let w1 := (shouldRouteTo b1 (entry_Y ∅ 2)
               (getSupportedProtocols Y (world s)) (world s)).2 in
  poll (taskqueue s) = PollTask t q /\
  db_get Y true (db s) = (inr (entry_Y ∅ 2), entries) /\
  shouldRouteTo b1 (entry_Y ∅ 2) (getSupportedProtocols Y (world s)) (world s)
    = ((true, CONN_TCPIP), w1) /\
  transferTo Y b1 CONN_TCPIP entries w1
    = (Some AlreadyInTransitException, entries, w1) /\
  run_iteration s =
    (Yielded,
     {| db := entries; db_locked := false; world := w1; taskqueue := q;
        run_list := [];
        trace := [EvDebug (processing t); EvLock; EvUnlock;
                  EvTransfer Y b1 CONN_TCPIP;
                  EvDebug (aborted t AlreadyInTransitException)] |}).
Proof.
  intros t w entries s q w1.
  assert (Hpoll : poll (taskqueue s) = PollTask t q) by reflexivity.
  assert (Hget : db_get Y true (db s) = (inr (entry_Y ∅ 2), entries))
    by (vm_compute; reflexivity).
  assert (Hroute :
    shouldRouteTo b1 (entry_Y ∅ 2) (getSupportedProtocols Y (world s))
      (world s) = ((true, CONN_TCPIP), w1)) by reflexivity.
  assert (Hreply :
    transferTo Y b1 CONN_TCPIP entries w1
      = (Some AlreadyInTransitException, entries, w1)) by reflexivity.
  split; [exact Hpoll|]. split; [exact Hget|]. split; [exact Hroute|].
  split; [exact Hreply|].
  exact (accepted_bundle_is_transferred_once s b1 X Y q (entry_Y ∅ 2) entries
           CONN_TCPIP w1 (Some AlreadyInTransitException) entries w1
           Hpoll Hget Hroute Hreply).
Defined.

(** [b1] queued towards [X] on an idle worker, and three iterations. *)
Lemma queued_bundle_is_not_sent_back_witness :
  let s := worker known_neighbors [] (network [CONN_TCPIP] [] []) in
  items (taskqueue s) = [] /\
  exists evs,
    trace (run 3 (eventBundleQueued X b1 s)).2 = trace s ++ evs /\
    processed evs `prefix_of` offers X b1 (getNeighbors (world s)) /\
    Forall (fun tr =>
              tr.1.1 <> X /\ tr.1.2 = b1 /\
              exists n, n ∈ getNeighbors (world s) /\ tr.1.1 = getEID n)
      (transfers evs).
Proof.
  intros s. split; [reflexivity|].
  exact (queued_bundle_is_not_sent_back X b1 3 s eq_refl).
Defined.

(** What these three iterations do: [b1] goes to [Y], and the task for [Z]
    is dropped, since [b1] is not for [Z]. *)
Example queued_bundle_reaches_its_neighbor :
  let s := worker known_neighbors [] (network [CONN_TCPIP] [] []) in
  let r := run 3 (eventBundleQueued X b1 s) in
  r.1 = Polling /\
  transfers (trace r.2) = [(Y, b1, CONN_TCPIP)] /\
  processed (trace r.2) =
    [ProcessBundleTask b1 X Y; ProcessBundleTask b1 X Z].
Proof. split; [|split]; vm_compute; reflexivity. Qed.

(** A search for [Y] with a stale list left by an earlier search. *)
Lemma search_starts_from_an_empty_list_witness :
  let t := SearchNextBundleTask Y in
  let s := worker known_neighbors [t] (network [CONN_TCPIP] [b1] []) in
  let q := {| items := []; queue_aborted := false |} in
  poll (taskqueue s) = PollTask t q /\
  run_iteration (set_run_list [(b5, CONN_UDPIP)] s) = run_iteration s.
Proof.
  intros t s q.
  assert (Hpoll : poll (taskqueue s) = PollTask t q) by reflexivity.
  split; [exact Hpoll|].
  exact (search_starts_from_an_empty_list s Y q [(b5, CONN_UDPIP)] Hpoll).
Defined.

(** A "data changed" event for [Y] on an idle worker. *)
Lemma data_changed_starts_a_search_witness :
  let s := worker known_neighbors [] (network [CONN_TCPIP] [b1] []) in
  let r := run_iteration (eventDataChanged Y s) in
  items (taskqueue s) = [] /\ queue_aborted (taskqueue s) = false /\
  r.1 <> Polling /\
  items (taskqueue r.2) = [] /\
  exists evs,
    trace r.2 = trace s ++ EvDebug (processing (SearchNextBundleTask Y)) :: evs /\
    processed evs = [] /\
    Forall (fun tr => tr.1.1 = Y) (transfers evs).
Proof.
  intros s r. split; [reflexivity|]. split; [reflexivity|].
  exact (data_changed_starts_a_search Y s eq_refl eq_refl).
Defined.

(** A search for the node [Y] and a search for an application on [Y]
    render alike, both EIDs being shown by the letter of the node; a process
    task never renders like a search. *)
Lemma toString_tells_the_task_class_witness :
  SearchNextBundleTask (2, 0) <> SearchNextBundleTask (2, 5) /\
  toString (SearchNextBundleTask (2, 0)) =
    toString (SearchNextBundleTask (2, 5)) /\
  getString (2, 0) = getString (2, 5).
Proof.
  split; [discriminate|]. split; [reflexivity|].
  exact (toString_tells_the_task_class (SearchNextBundleTask (2, 0))
           (SearchNextBundleTask (2, 5)) eq_refl).
Defined.

(** [bind] for the neighbour [Y] on a statement with one parameter. *)
Lemma bind_fills_the_placeholder_of_getWhere_witness :
  let st := {| parameters := 1; bound := [] |} in
  let d := getString (getNode (eid (entry_Y ∅ 2))) +:+ "%" in
  let r := bind (entry_Y ∅ 2) st 1 in
  (INT_MIN <= 1 < INT_MAX)%Z /\
  (Z.of_nat (String.length (getString (getNode (eid (entry_Y ∅ 2)))))
     < INT_MAX)%Z /\
  Z.of_nat (occurrences placeholder getWhere) = (r.2 - 1)%Z /\
  r.1 = (sqlite3_bind_text st 1%Z d (Z.of_nat (String.length d))).2 /\
  r.2 = (1 + 1)%Z.
Proof.
  intros st d r.
  assert (Hoffset : (INT_MIN <= 1 < INT_MAX)%Z)
    by (vm_compute; split; congruence).
  assert (Hlength :
    (Z.of_nat (String.length (getString (getNode (eid (entry_Y ∅ 2)))))
       < INT_MAX)%Z) by (vm_compute; reflexivity).
  split; [exact Hoffset|]. split; [exact Hlength|].
  exact (bind_fills_the_placeholder_of_getWhere (entry_Y ∅ 2) st 1%Z
           Hoffset Hlength).
Defined.

(** How the tasks of the small network render, and what [bind] binds for
    the neighbour [Y]. *)
Example renderings_on_the_network :
  let st := {| parameters := 1; bound := [] |} in
  toString (SearchNextBundleTask Y) = "SearchNextBundleTask: dtn://c" /\
  toString (ProcessBundleTask b1 X Y) = "ProcessBundleTask: bundle" /\
  bind (entry_Y ∅ 2) st 1 =
    ({| parameters := 1; bound := [(1%Z, "dtn://c%")] |}, 2%Z).
Proof. split; [|split]; vm_compute; reflexivity. Qed.

(** Outside of these bounds [bind] is not the filling of a placeholder: at
    the index 0 the statement stays as it is, and at INT_MAX the index that
    [bind] returns is INT_MIN. *)
Example bind_outside_of_its_bounds :
  let st := {| parameters := 1; bound := [] |} in
  bind (entry_Y ∅ 2) st 0 = (st, 1%Z) /\
  (bind (entry_Y ∅ 2) st INT_MAX).2 = INT_MIN.
Proof. split; vm_compute; reflexivity. Qed.

(** A cancelled worker with a task queued: the task stays where it is. *)
Example cancelled_worker_leaves_its_tasks :
  let t := ProcessBundleTask b1 X Y in
  let r := run 5 (__cancellation (worker known_neighbors [t]
                                    (network [CONN_TCPIP] [] []))) in
  r.1 = Returned /\
  items (taskqueue r.2) = [t] /\
  trace r.2 = [EvDebug (terminated QueueUnavailableException)].
Proof. split; [|split]; vm_compute; reflexivity. Qed.
